(** * Source-tree aggregation scripts: a shallow embedding

    Embeds [save_files_as_text] of [project_as_text copy.py] (SingleFile and
    PerFile modes) and of [project_as_text_by_modules.py] (PerModule mode).

    Conventions of the model.
    - A Python [str] is represented by its UTF-8 encoding, a [string] of
      bytes.  Strict UTF-8 decoding is then a validity check and encoding is
      the identity; concatenation, [endswith] with an ASCII suffix and
      splitting on ['/'] commute with this representation.
    - POSIX: [os.sep] is ['/'] and [os.linesep] is a line feed, so text-mode
      writes store the written text unchanged.
    - A path below [src_dir] is the list of its segments; [root == src_dir]
      holds exactly for the empty list.
    - The source tree is a tree of directories: [os.walk] follows no link
      and passes over what it cannot list.  The destination lies outside the
      source tree, which no run modifies.
    - File and directory names are the byte strings the file system holds.
      Opening a destination file may fail.  A write to an open file and a
      [print] are taken to succeed: the device takes the data, and the text
      written can be encoded.  The texts read are valid UTF-8; the headers
      hold names, and a property that depends on a header being written
      states that the names in it are valid UTF-8. *)

From Stdlib Require Import String Ascii List NArith Lia.
From stdpp Require Import base list strings gmap.

Open Scope string_scope.

(** ** Text and path primitives *)

Definition LF : string := String "010"%char EmptyString.
Definition CR : string := String "013"%char EmptyString.

(** [str.endswith(suf)] *)
Fixpoint endswith (s suf : string) : bool :=
  String.eqb s suf ||
  match s with
  | EmptyString => false
  | String _ s' => endswith s' suf
  end.

Definition extensions : list string :=
  [".ts"; ".java"; ".properties"; ".xml"; ".py"; ".md"; ".sql"].

(** [file.endswith(('.ts', '.java', '.properties', '.xml', '.py', '.md', '.sql'))] *)
Definition eligible (file : string) : bool :=
  existsb (endswith file) extensions.

Definition byte_in (lo hi : N) (a : ascii) : bool :=
  let n := N_of_ascii a in (lo <=? n)%N && (n <=? hi)%N.

Definition cont (a : ascii) : bool := byte_in 128 191 a.

(** Strict UTF-8 well-formedness, as enforced by the [utf-8] codec with the
    default error handler: no overlong forms, no surrogates, nothing above
    U+10FFFF, no truncated sequence. *)
Fixpoint utf8_valid (s : string) : bool :=
  match s with
  | EmptyString => true
  | String a s1 =>
    if byte_in 0 127 a then utf8_valid s1
    else match s1 with
    | EmptyString => false
    | String b s2 =>
      if byte_in 194 223 a then cont b && utf8_valid s2
      else match s2 with
      | EmptyString => false
      | String c s3 =>
        if byte_in 224 239 a then
          (if byte_in 224 224 a then byte_in 160 191 b
           else if byte_in 237 237 a then byte_in 128 159 b
           else cont b) && cont c && utf8_valid s3
        else match s3 with
        | EmptyString => false
        | String d s4 =>
          byte_in 240 244 a &&
          (if byte_in 240 240 a then byte_in 144 191 b
           else if byte_in 244 244 a then byte_in 128 143 b
           else cont b) && cont c && cont d && utf8_valid s4
        end
      end
    end
  end.

(** Newline translation of a text-mode read with [newline=None]: each of
    CR LF and a lone CR becomes LF. *)
Fixpoint universal_newlines (s : string) : string :=
  match s with
  | EmptyString => EmptyString
  | String a s1 =>
    if Ascii.eqb a "013"%char then
      match s1 with
      | String b s2 =>
        if Ascii.eqb b "010"%char then String "010"%char (universal_newlines s2)
        else String "010"%char (universal_newlines s1)
      | EmptyString => String "010"%char EmptyString
      end
    else String a (universal_newlines s1)
  end.

(** [s.split(os.sep)[0]]: the prefix of [s] before its first ['/']. *)
Fixpoint first_segment (s : string) : string :=
  match s with
  | EmptyString => EmptyString
  | String a s' =>
    if Ascii.eqb a "/"%char then EmptyString else String a (first_segment s')
  end.

(** [s * n] *)
Fixpoint str_mul (s : string) (n : nat) : string :=
  match n with
  | O => ""
  | S n' => s ++ str_mul s n'
  end.

(** Segments of a path below the source root. *)
Abbreviation path := (list string) (only parsing).

(** [os.path.relpath(p, src_dir)] for [p] below [src_dir]: the segments
    joined by ['/']; ["."] when [p] is [src_dir] itself. *)
Fixpoint join_segments (d : string) (ds : path) : string :=
  match ds with
  | [] => d
  | d' :: ds' => d ++ "/" ++ join_segments d' ds'
  end.

Definition relpath (p : path) : string :=
  match p with
  | [] => "."
  | d :: ds => join_segments d ds
  end.

(** [b.startswith('/')] *)
Definition is_abs (b : string) : bool :=
  match b with
  | String a _ => Ascii.eqb a "/"%char
  | EmptyString => false
  end.

(** [os.path.join(a, b)] on POSIX. *)
Definition os_path_join (a b : string) : string :=
  if is_abs b then b
  else if String.eqb a "" || endswith a "/" then a ++ b
  else a ++ "/" ++ b.

(** ** The source tree *)

(** What opening and reading a listed file meets: its bytes, or an
    operating-system error (permission denied, vanished file, ...). *)
Inductive fdata :=
  | Bytes (b : string)
  | Unreadable (err : string).

(** A directory: its non-directory entries in listing order, each with what a
    read of it meets, and its sub-directories in listing order. *)
#[warnings="-register-all"]
Inductive node :=
  | Dir (files : list (string * fdata)) (subdirs : list (string * node)).

Definition node_files (t : node) : list (string * fdata) :=
  match t with Dir fs _ => fs end.
Definition node_subdirs (t : node) : list (string * node) :=
  match t with Dir _ ds => ds end.

(** ** Exceptions and the state-and-exception monad *)

Inductive exn :=
  | UnicodeDecodeError
  | OSError (msg : string).

(** [str(e)] as interpolated into the diagnostics. *)
Definition exn_str (e : exn) : string :=
  match e with
  | UnicodeDecodeError => "'utf-8' codec can't decode"
  | OSError msg => msg
  end.

Inductive res (A : Type) :=
  | Ok (a : A)
  | Raise (e : exn).
Arguments Ok {A} a.
Arguments Raise {A} e.

Definition M (W A : Type) : Type := W -> res A * W.

Definition ret {W A} (a : A) : M W A := fun w => (Ok a, w).
Definition raise {W A} (e : exn) : M W A := fun w => (Raise e, w).
Definition bind {W A B} (m : M W A) (k : A -> M W B) : M W B :=
  fun w => match m w with
           | (Ok a, w') => k a w'
           | (Raise e, w') => (Raise e, w')
           end.
(** [try: m except X as e: h e] *)
Definition try_except {W A} (m : M W A) (h : exn -> M W A) : M W A :=
  fun w => match m w with
           | (Ok a, w') => (Ok a, w')
           | (Raise e, w') => h e w'
           end.
Definition modify {W} (f : W -> W) : M W unit := fun w => (Ok tt, f w).

Declare Scope monad_scope.
Delimit Scope monad_scope with monad.
Notation "x <- m ;; k" := (bind m (fun x => k))
  (at level 100, m at next level, right associativity) : monad_scope.
Notation "m ;;; k" := (bind m (fun _ => k))
  (at level 100, right associativity) : monad_scope.
Open Scope monad_scope.

(** [for x in xs: body x] *)
Fixpoint for_each {W A} (xs : list A) (body : A -> M W unit) : M W unit :=
  match xs with
  | [] => ret tt
  | x :: xs' => body x ;;; for_each xs' body
  end.

(** [with open(p, 'r', encoding='utf-8') as f: content = f.read()] *)
Definition read_text {W} (d : fdata) : M W string :=
  match d with
  | Unreadable err => raise (OSError err)
  | Bytes b =>
    if utf8_valid b then ret (universal_newlines b)
    else raise UnicodeDecodeError
  end.

(** ** [os.walk], top-down

    The generator yields [(root, dirs, files)] and afterwards descends into
    the names that are left in the very list [dirs] it yielded.  The loop
    body is therefore a computation returning that list as the body leaves
    it; a name that is no sub-directory is passed over, as [os.walk] does
    with a failing [scandir]. *)

(** The sub-directory named [d] among the entries [cs], handed to [k]. *)
Section FindDir.
Context {A : Type}.
Variables (d : string) (k : node -> A) (dflt : A).

Fixpoint find_dir (cs : list (string * node)) : A :=
  match cs with
  | [] => dflt
  | (n, c) :: cs' => if String.eqb n d then k c else find_dir cs'
  end.
End FindDir.

Section Walk.
Context {W : Type}.
Variable body : path -> list string -> list (string * fdata) -> M W (list string).

Fixpoint os_walk (root : path) (t : node) {struct t} : M W unit :=
  match t with
  | Dir files subdirs =>
    dirs <- body root (map fst subdirs) files ;;
    for_each dirs (fun d =>
      find_dir d (os_walk (root ++ [d])%list) (ret tt) subdirs)
  end.
End Walk.

(** ** The destination and the console *)

(** What stands at a destination path: a regular file with its content, or
    something that cannot be opened for writing (a directory, a file
    without write permission, ...), with the error raised by [open]. *)
Inductive dentry :=
  | Content (c : string)
  | Blocked (err : string).

Inductive open_mode := ModeW | ModeA.

Record world := World {
  dir_exists : bool;               (* os.path.exists(dest_dir) *)
  fs_files : gmap string dentry;   (* destination paths *)
  console : list string;           (* lines printed so far *)
  opens : list (open_mode * string) (* successful opens for writing, in order *)
}.

Definition set_files (f : gmap string dentry -> gmap string dentry) (w : world) : world :=
  World (dir_exists w) (f (fs_files w)) (console w) (opens w).

Definition opened (m : open_mode) (p : string) (w : world) : world :=
  World (dir_exists w) (fs_files w) (console w) (opens w ++ [(m, p)])%list.

(** [print(line)] *)
Definition print (line : string) : M world unit :=
  modify (fun w =>
    World (dir_exists w) (fs_files w) (console w ++ [line])%list (opens w)).

(** [open(p, 'w', encoding='utf-8')]: creates or truncates. *)
Definition open_w (p : string) : M world unit :=
  fun w => match fs_files w !! p with
           | Some (Blocked err) => (Raise (OSError err), w)
           | _ => (Ok tt, opened ModeW p (set_files <[p := Content ""]> w))
           end.

(** [open(p, 'a', encoding='utf-8')]: creates, never truncates. *)
Definition open_a (p : string) : M world unit :=
  fun w => match fs_files w !! p with
           | Some (Blocked err) => (Raise (OSError err), w)
           | Some (Content _) => (Ok tt, opened ModeA p w)
           | None => (Ok tt, opened ModeA p (set_files <[p := Content ""]> w))
           end.

Definition extend (s : string) (e : dentry) : dentry :=
  match e with
  | Content c => Content (c ++ s)
  | Blocked err => Blocked err
  end.

(** [f.write(s)] on the file opened at [p], for a text [s] that can be
    encoded and a device that takes the data. *)
Definition write (p s : string) : M world unit :=
  modify (set_files (alter (extend s) p)).

(** [os.makedirs(dest_dir)]; [err] is the error the call meets, if any. *)
Definition makedirs (err : option string) : M world unit :=
  fun w => match err with
           | Some e => (Raise (OSError e), w)
           | None => (Ok tt, World true (fs_files w) (console w) (opens w))
           end.

(** ** The two scripts *)

Section Aggregate.
Variable src_dir : string.
Variable exclude_dirs : list string.
(** The error [os.makedirs] would meet on the destination directory. *)
Variable makedirs_error : option string.

(** The [root] string yielded by [os.walk] for the directory at [p]. *)
Definition root_str (p : path) : string := fold_left os_path_join p src_dir.

(** [dirs[:] = [d for d in dirs if d not in exclude_dirs]] *)
Definition prune (dirs : list string) : list string :=
  filter (λ d, d ∉ exclude_dirs) dirs.

(** The two [except] clauses shared by every per-file [try]. *)
Definition report (src_file_path : string) (e : exn) : M world unit :=
  match e with
  | UnicodeDecodeError =>
    print ("Skipping binary or incompatible file: " ++ src_file_path)
  | _ =>
    print ("Error processing file " ++ src_file_path ++ ": " ++ exn_str e)
  end.

(** ["-" * 20] *)
Definition dashes : string := str_mul "-" 20.

(** Lines 12-31 of [project_as_text copy.py], one iteration. *)
Definition single_entry (dest_file_path : string) (root : path)
    (f : string * fdata) : M world unit :=
  let file := f.1 in
  if eligible file then
    let src_file_path := os_path_join (root_str root) file in
    try_except
      (content <- read_text f.2 ;;
       write dest_file_path (file ++ ".txt" ++ LF ++ LF) ;;;
       write dest_file_path content ;;;
       write dest_file_path (LF ++ dashes ++ LF))
      (report src_file_path)
  else ret tt.

(** Lines 40-59 of [project_as_text copy.py] and 14-33 of
    [project_as_text_by_modules.py], one iteration. *)
Definition per_file_entry (dest_dir : string) (root : path)
    (f : string * fdata) : M world unit :=
  let file := f.1 in
  if eligible file then
    let src_file_path := os_path_join (root_str root) file in
    let dest_file_path_single := os_path_join dest_dir (file ++ ".txt") in
    try_except
      (content <- read_text f.2 ;;
       open_w dest_file_path_single ;;;
       write dest_file_path_single content)
      (report src_file_path)
  else ret tt.

(** Lines 40-60 of [project_as_text_by_modules.py], one iteration. *)
Definition module_entry (subfolder_file_path : string) (root : path)
    (f : string * fdata) : M world unit :=
  let file := f.1 in
  if eligible file then
    let src_file_path := os_path_join (root_str root) file in
    let relative_file_path := relpath (root ++ [file])%list in
    try_except
      (content <- read_text f.2 ;;
       write subfolder_file_path (relative_file_path ++ LF ++ LF) ;;;
       write subfolder_file_path content ;;;
       write subfolder_file_path (LF ++ "---" ++ LF))
      (report src_file_path)
  else ret tt.

Definition single_file_body (dest_file_path : string) (root : path)
    (dirs : list string) (files : list (string * fdata)) : M world (list string) :=
  let dirs := prune dirs in
  for_each files (single_entry dest_file_path root) ;;;
  ret dirs.

Definition per_file_body (dest_dir : string) (root : path)
    (dirs : list string) (files : list (string * fdata)) : M world (list string) :=
  let dirs := prune dirs in
  for_each files (per_file_entry dest_dir root) ;;;
  ret dirs.

Definition ensure_dir : M world unit :=
  fun w => if dir_exists w then (Ok tt, w) else makedirs makedirs_error w.

(** [save_files_as_text] of [project_as_text copy.py]; the source tree at
    [src_dir] is [t]. *)
Definition save_files_as_text (t : node) (dest_file_path : string)
    (single_file : bool) : M world unit :=
  if single_file then
    open_w dest_file_path ;;;
    os_walk (single_file_body dest_file_path) [] t
  else
    ensure_dir ;;;
    os_walk (per_file_body dest_file_path) [] t.

(** Lines 9-60 of [project_as_text_by_modules.py]: the body of the loop
    over [os.walk]. *)
Definition by_modules_body (dest_dir : string) (root : path)
    (dirs : list string) (files : list (string * fdata)) : M world (list string) :=
  let dirs := prune dirs in
  (if decide (root = []) then
     for_each files (per_file_entry dest_dir root)
   else
     let relative_folder_path := relpath root in
     let subfolder_file_path :=
       os_path_join dest_dir (first_segment relative_folder_path ++ ".txt") in
     open_a subfolder_file_path ;;;
     for_each files (module_entry subfolder_file_path root)) ;;;
  ret dirs.

(** [save_files_as_text] of [project_as_text_by_modules.py]. *)
Definition save_files_as_text_by_modules (t : node) (dest_dir : string)
    : M world unit :=
  ensure_dir ;;;
  os_walk (by_modules_body dest_dir) [] t.
End Aggregate.

(** No byte of [s] is a carriage return. *)
Fixpoint cr_free (s : string) : bool :=
  match s with
  | EmptyString => true
  | String a s' => negb (Ascii.eqb a "013"%char) && cr_free s'
  end.

(** The scenario tree: [a.py], [sub/b.py], [target/c.py]. *)
Definition scenario : node :=
  Dir [("a.py", Bytes "x=1")]
      [("sub", Dir [("b.py", Bytes "y=2")] []);
       ("target", Dir [("c.py", Bytes "z=3")] [])].

(** Two files of one base name in two directories, and a file with a
    CR LF line ending. *)
Definition collide : node :=
  Dir [("c.py", Bytes ("p" ++ CR ++ LF ++ "q"))]
      [("a", Dir [("x.py", Bytes "1")] []);
       ("b", Dir [("x.py", Bytes "2")] [])].

(** No destination directory yet, nothing printed, nothing opened. *)
Definition fresh : world := World false ∅ [] [].

(** ** Reading the tree: path resolution and the pruned traversal *)

(** The entry named [d] that a lookup in a directory's entries resolves to. *)
Definition lookup_dir (d : string) (cs : list (string * node)) : option node :=
  find_dir d Some None cs.

(** The directory that the path [p] below [t] resolves to. *)
Fixpoint subtree (t : node) (p : path) : option node :=
  match p with
  | [] => Some t
  | d :: p' =>
    match lookup_dir d (node_subdirs t) with
    | Some c => subtree c p'
    | None => None
    end
  end.

(** A file named [f] stands in the directory at path [p], where a read of
    it meets [d]. *)
Definition file_at (t : node) (p : path) (f : string) (d : fdata) : Prop :=
  ∃ c, subtree t p = Some c ∧ (f, d) ∈ node_files c.

(** No directory name on the path is excluded. *)
Definition outside (excl : list string) (p : path) : Prop :=
  Forall (λ d, d ∉ excl) p.

(** No name contains the separator. *)
Definition sep_free (s : string) : Prop := first_segment s = s.

(** Names within every directory are pairwise distinct and hold no
    separator, as a file system has them. *)
Fixpoint wf_node (t : node) : Prop :=
  match t with
  | Dir files subdirs =>
    NoDup (map fst files ++ map fst subdirs)%list ∧
    Forall sep_free (map fst files ++ map fst subdirs)%list ∧
    (fix all (cs : list (string * node)) : Prop :=
       match cs with
       | [] => True
       | (_, c) :: cs' => wf_node c ∧ all cs'
       end) subdirs
  end.

(** The entries whose name is not in [excl], each sub-directory mapped by [f]. *)
Section MapKept.
Variables (excl : list string) (f : node -> node).

Fixpoint map_kept (cs : list (string * node)) : list (string * node) :=
  match cs with
  | [] => []
  | (n, c) :: cs' =>
    if decide (n ∈ excl) then map_kept cs' else (n, f c) :: map_kept cs'
  end.
End MapKept.

Section Traversal.
Variable excl : list string.

(** The directories handed to the loop body, in order, each with its
    files: the top-down walk with pruning. *)
Fixpoint walked (root : path) (t : node) : list (path * list (string * fdata)) :=
  match t with
  | Dir files subdirs =>
    (root, files) ::
    flat_map (fun d => find_dir d (walked (root ++ [d])%list) [] subdirs)
             (filter (λ d, d ∉ excl) (map fst subdirs))
  end.

(** The files met by the walk, in order. *)
Definition listing (t : node) : list (path * (string * fdata)) :=
  flat_map (fun v => map (pair v.1) v.2) (walked [] t).

(** The tree without its excluded directories. *)
Fixpoint erase (t : node) : node :=
  match t with
  | Dir files subdirs =>
    Dir files (map_kept excl erase subdirs)
  end.
End Traversal.

(** ** Notions used in the statements *)

(** A loop body that prunes [dirs] as the scripts do and runs [act] on the
    directory. *)
Definition pruning_body {W} (excl : list string)
    (act : path -> list (string * fdata) -> M W unit)
    (root : path) (dirs : list string) (files : list (string * fdata))
    : M W (list string) :=
  act root files ;;; ret (filter (λ d, d ∉ excl) dirs).

(** What the PerModule loop body does with one directory, after pruning
    (lines 13-60 of [project_as_text_by_modules.py]). *)
Definition module_act (src dest_dir : string) (root : path)
    (files : list (string * fdata)) : M world unit :=
  if decide (root = []) then for_each files (per_file_entry src dest_dir root)
  else
    let p := os_path_join dest_dir (first_segment (relpath root) ++ ".txt") in
    open_a p ;;; for_each files (module_entry src p root).

(** Concatenation of blocks of text. *)
Definition cat (l : list string) : string := foldr String.append "" l.

(** What a text-mode read of the file returns, or the exception it raises. *)
Definition read_res (d : fdata) : res string :=
  match d with
  | Unreadable err => Raise (OSError err)
  | Bytes b =>
    if utf8_valid b then Ok (universal_newlines b) else Raise UnicodeDecodeError
  end.

(** The line printed by the [except] clause that catches [e]. *)
Definition report_line (src_file_path : string) (e : exn) : string :=
  match e with
  | UnicodeDecodeError => "Skipping binary or incompatible file: " ++ src_file_path
  | _ => "Error processing file " ++ src_file_path ++ ": " ++ exn_str e
  end.

(** The world after [print(line)]. *)
Definition put_line (line : string) (w : world) : world :=
  World (dir_exists w) (fs_files w) (console w ++ [line])%list (opens w).

(** The block written for one file in SingleFile mode. *)
Definition single_block (file content : string) : string :=
  file ++ ".txt" ++ LF ++ LF ++ content ++ LF ++ "--------------------" ++ LF.

(** The block appended for one file in PerModule mode. *)
Definition module_block (root : path) (file content : string) : string :=
  relpath (root ++ [file])%list ++ LF ++ LF ++ content ++ LF ++ "---" ++ LF.

(** [os.path.join(root, file)] for the directory at [root]. *)
Definition src_path (src : string) (root : path) (file : string) : string :=
  os_path_join (root_str src root) file.

(** The world after one iteration of the SingleFile inner loop. *)
Definition sf_step (src dest : string) (root : path) (f : string * fdata)
    (w : world) : world :=
  if eligible f.1 then
    match read_res f.2 with
    | Ok c => set_files (alter (extend (single_block f.1 c)) dest) w
    | Raise e => put_line (report_line (src_path src root f.1) e) w
    end
  else w.

(** The world after one iteration of the PerModule inner loop below the
    root, on the destination file open at [p]. *)
Definition mod_step (src p : string) (root : path) (f : string * fdata)
    (w : world) : world :=
  if eligible f.1 then
    match read_res f.2 with
    | Ok c => set_files (alter (extend (module_block root f.1 c)) p) w
    | Raise e => put_line (report_line (src_path src root f.1) e) w
    end
  else w.

(** The world after one iteration of the PerFile inner loop. *)
Definition pf_step (src dest : string) (root : path) (f : string * fdata)
    (w : world) : world :=
  if eligible f.1 then
    match read_res f.2 with
    | Ok c =>
      let p := os_path_join dest (f.1 ++ ".txt") in
      match fs_files w !! p with
      | Some (Blocked err) =>
        put_line (report_line (src_path src root f.1) (OSError err)) w
      | _ => opened ModeW p (set_files <[p := Content c]> w)
      end
    | Raise e => put_line (report_line (src_path src root f.1) e) w
    end
  else w.

(** A listed file that is eligible and read successfully, with its text. *)
Definition emit (x : path * (string * fdata)) : option (path * string * string) :=
  if eligible x.2.1 then
    match read_res x.2.2 with
    | Ok c => Some (x.1, x.2.1, c)
    | Raise _ => None
    end
  else None.

(** The diagnostic for a listed file that is eligible and whose read fails. *)
Definition failure (src : string) (x : path * (string * fdata)) : option string :=
  if eligible x.2.1 then
    match read_res x.2.2 with
    | Ok _ => None
    | Raise e => Some (report_line (src_path src x.1 x.2.1) e)
    end
  else None.

(** The entries a run emits, in traversal order. *)
Definition emitted (excl : list string) (t : node) : list (path * string * string) :=
  omap emit (listing excl t).

(** The diagnostics of the failed reads, in traversal order. *)
Definition failures (src : string) (excl : list string) (t : node) : list string :=
  omap (failure src) (listing excl t).

(** The destination path cannot be opened for writing. *)
Definition blocked (m : gmap string dentry) (p : string) : Prop :=
  ∃ err, m !! p = Some (Blocked err).

(** The destination path of the file named [file]. *)
Definition dest_key (dest file : string) : string :=
  os_path_join dest (file ++ ".txt").

(** The world after the PerFile inner loop ran over the listed files. *)
Definition pf_run (src dest : string) (l : list (path * (string * fdata)))
    (w : world) : world :=
  foldl (fun w x => pf_step src dest x.1 x.2 w) w l.

(** The file a key holds after the loop: the text of the last emitted entry
    written to that key, if any. *)
Definition last_write (dest k : string) (es : list (path * string * string))
    : option (path * string * string) :=
  last (filter (λ e, dest_key dest e.1.2 = k) es).

(** The destination path of the directory at [r]: named after the first
    segment of its path relative to the source root. *)
Definition mkey (dest : string) (r : path) : string :=
  os_path_join dest (first_segment (relpath r) ++ ".txt").

(** The text a destination path holds; empty when it holds no file. *)
Definition prior (m : gmap string dentry) (k : string) : string :=
  match m !! k with
  | Some (Content c) => c
  | _ => ""
  end.

(** The blocks one directory contributes, and its diagnostics. *)
Definition dir_blocks (v : path * list (string * fdata)) : list string :=
  map (fun e => module_block e.1.1 e.1.2 e.2) (omap emit (map (pair v.1) v.2)).

Definition dir_failures (src : string) (v : path * list (string * fdata)) : list string :=
  omap (failure src) (map (pair v.1) v.2).

(** One directory below the root, once its destination file is open. *)
Definition md_step (src dest : string) (v : path * list (string * fdata))
    (w : world) : world :=
  let p := mkey dest v.1 in
  World (dir_exists w)
        (<[p := Content (prior (fs_files w) p ++ cat (dir_blocks v))]> (fs_files w))
        (console w ++ dir_failures src v)%list
        (opens w ++ [(ModeA, p)])%list.

(** The world after the PerModule loop ran over the directories [vs]. *)
Definition md_run (src dest : string) (vs : list (path * list (string * fdata)))
    (w : world) : world :=
  foldl (fun w v => md_step src dest v w) w vs.

(** The directories below the root that the walk hands to the loop body. *)
Definition sub_walked (excl : list string) (t : node)
    : list (path * list (string * fdata)) :=
  tail (walked excl [] t).

(** The world a PerModule run starts its walk in, and the one it ends in
    when no destination file of a directory is blocked. *)
Definition ready (w : world) : world :=
  World true (fs_files w) (console w) (opens w).

Definition modules_end (src dest : string) (excl : list string) (t : node)
    (w : world) : world :=
  md_run src dest (sub_walked excl t)
    (pf_run src dest (map (pair []) (node_files t)) (ready w)).

(** The blocks that the directories [vs] append to the destination path [k]. *)
Definition blocks_for (dest k : string) (vs : list (path * list (string * fdata)))
    : list string :=
  flat_map (fun v => if decide (mkey dest v.1 = k) then dir_blocks v else []) vs.

(** The entries emitted from the directories [vs]. *)
Definition entries_of (vs : list (path * list (string * fdata)))
    : list (path * string * string) :=
  omap emit (flat_map (fun v => map (pair v.1) v.2) vs).

(** A tree with a top-level directory that holds no eligible file. *)
Definition with_docs : node :=
  Dir [("a.py", Bytes "x=1")] [("docs", Dir [("logo.png", Bytes "png")] [])].

(** A destination directory that exists and in which [sub.txt] cannot be
    opened. *)
Definition locked : world :=
  World true {[ "out/sub.txt" := Blocked "Is a directory" ]} [] [].

(** A listed file is identified by its directory and its name. *)
Definition file_key (x : path * (string * fdata)) : path * string := (x.1, x.2.1).

(** ** Notions used in the further properties *)

(** The entry point of [project_as_text_by_modules.py], lines 66-71, after
    the command line is parsed: [script_dir] is
    [os.path.dirname(os.path.abspath(__file__))] and [t] the tree at
    [script_dir].  The destination lies in [script_dir], so [t] holds it. *)
Definition main_by_modules (script_dir : string)
    (makedirs_error : option string) (t : node) : M world unit :=
  let src_directory := script_dir in
  let dest_directory := os_path_join src_directory "project_as_text" in
  let exclude_directories := ["target"] in
  save_files_as_text_by_modules src_directory exclude_directories
    makedirs_error t dest_directory.

(** Every byte is below 128. *)
Fixpoint is_ascii (s : string) : bool :=
  match s with
  | EmptyString => true
  | String a s' => byte_in 0 127 a && is_ascii s'
  end.

(** The scenario tree with the destination directory of the entry points in
    it, as a walk that starts after [os.makedirs] finds it. *)
Definition scenario_in_place : node :=
  Dir [("a.py", Bytes "x=1")]
      [("project_as_text", Dir [] []);
       ("sub", Dir [("b.py", Bytes "y=2")] []);
       ("target", Dir [("c.py", Bytes "z=3")] [])].

(** One byte that no UTF-8 text holds. *)
Definition not_text : string := String "255"%char EmptyString.

(** A root with an undecodable and an unreadable eligible file. *)
Definition faulty : node :=
  Dir [("a.py", Bytes "x=1"); ("bad.py", Bytes not_text);
       ("gone.md", Unreadable "No such file")]
      [("sub", Dir [("b.py", Bytes "y=2")] [])].

(** The last byte of a string. *)
Fixpoint last_char (s : string) : option ascii :=
  match s with
  | EmptyString => None
  | String a EmptyString => Some a
  | String _ s' => last_char s'
  end.

(** The tree with the files of every directory restricted to those whose
    name passes the extension filter. *)
Fixpoint only_eligible (t : node) : node :=
  match t with
  | Dir files subdirs =>
    Dir (filter (λ fd, eligible fd.1 = true) files)
        (map_kept [] only_eligible subdirs)
  end.

(** ** The tree read structurally

    The notions below read the tree by structural recursion on its
    directories, in listing order, without resolving any name. *)

(** The lists [f n c] of the sub-directories [(n, c)], in listing order,
    appended. *)
Section FlatDirs.
Context {B : Type}.
Variable f : string -> node -> list B.

Fixpoint flat_dirs (cs : list (string * node)) : list B :=
  match cs with
  | [] => []
  | (n, c) :: cs' => (f n c ++ flat_dirs cs')%list
  end.
End FlatDirs.

Section Visits.
Variable excl : list string.

(** The directories in pre-order, each with its path and its files; a
    sub-directory whose name is excluded is left out with all it holds. *)
Fixpoint visits (root : path) (t : node) : list (path * list (string * fdata)) :=
  match t with
  | Dir files subdirs =>
    (root, files) ::
    flat_dirs (fun n c => if decide (n ∈ excl) then []
                          else visits (root ++ [n])%list c) subdirs
  end.

(** The files of those directories, each with the path of its directory. *)
Definition tree_files (t : node) : list (path * (string * fdata)) :=
  flat_map (fun v => map (pair v.1) v.2) (visits [] t).
End Visits.

(** Every CR LF pair replaced by LF, from left to right. *)
Fixpoint replace_crlf (s : string) : string :=
  match s with
  | EmptyString => EmptyString
  | String a s1 =>
    match s1 with
    | EmptyString => String a EmptyString
    | String b s2 =>
      if Ascii.eqb a "013"%char && Ascii.eqb b "010"%char
      then String "010"%char (replace_crlf s2)
      else String a (replace_crlf s1)
    end
  end.

(** Every CR replaced by LF. *)
Fixpoint replace_cr (s : string) : string :=
  match s with
  | EmptyString => EmptyString
  | String a s1 =>
    String (if Ascii.eqb a "013"%char then "010"%char else a) (replace_cr s1)
  end.

(** The text of a file that is eligible, readable and valid UTF-8: its bytes
    with CR LF, then CR, replaced by LF. *)
Definition read_entry (x : path * (string * fdata)) : option (path * string * string) :=
  match x.2.2 with
  | Bytes b =>
    if eligible x.2.1 && utf8_valid b
    then Some (x.1, x.2.1, replace_cr (replace_crlf b))
    else None
  | Unreadable _ => None
  end.

(** The eligible files that are read, in pre-order, with their texts. *)
Definition read_entries (excl : list string) (t : node)
    : list (path * string * string) :=
  omap read_entry (tree_files excl t).

(** The relative path of the file named [f] in the directory at [p]. *)
Definition slashed (p : path) (f : string) : string :=
  String.concat "/" (p ++ [f])%list.

(** A tree with nested directories, an excluded directory, a directory
    without eligible files, a CR LF line ending, and eligible files whose read
    fails. *)
Definition nested : node :=
  Dir [("a.py", Bytes "x=1"); ("bad.py", Bytes not_text);
       ("w.md", Bytes ("p" ++ CR ++ LF ++ "q"))]
      [("sub", Dir [("b.py", Bytes "y=2"); ("bad.xml", Bytes not_text);
                    ("gone.sql", Unreadable "Permission denied")]
                   [("deep", Dir [("c.py", Bytes "z=3")] [])]);
       ("docs", Dir [("logo.png", Bytes "png")] []);
       ("target", Dir [("t.py", Bytes "no")] [])].

(** ** Runs compared up to what is printed *)






(** * Properties *)

(** ** The monad and the loops *)

Lemma node_ind' (P : node -> Prop) :
  (∀ files subdirs, Forall (λ nc, P nc.2) subdirs → P (Dir files subdirs)) →
  ∀ t, P t.
Proof.
  intros step. fix IH 1. intros [files subdirs]. apply step.
  induction subdirs as [|[n c] cs IHcs]; constructor; [apply IH | exact IHcs].
Qed.

Lemma for_each_app {W A} (l1 l2 : list A) (f : A -> M W unit) w :
  for_each (l1 ++ l2)%list f w = (for_each l1 f ;;; for_each l2 f) w.
Proof.
  revert w. induction l1 as [|x l1 IH]; intros w; simpl; [done|].
  unfold bind. destruct (f x w) as [[[]|e] w1]; [|done].
  rewrite IH. done.
Qed.

Lemma for_each_ext {W A} (l : list A) (f g : A -> M W unit) :
  (∀ x w, x ∈ l → f x w = g x w) → ∀ w, for_each l f w = for_each l g w.
Proof.
  induction l as [|x l IH]; intros Hfg w; simpl; [done|].
  unfold bind. rewrite Hfg by left.
  destruct (g x w) as [[[]|e] w1]; [|done].
  apply IH. intros y w' Hy. apply Hfg. by right.
Qed.

Lemma for_each_flat_map {W A B} (g : A -> list B) (l : list A)
    (f : B -> M W unit) w :
  for_each (flat_map g l) f w = for_each l (fun x => for_each (g x) f) w.
Proof.
  revert w. induction l as [|x l IH]; intros w; simpl; [done|].
  rewrite for_each_app. unfold bind.
  destruct (for_each (g x) f w) as [[[]|e] w1]; [|done]. apply IH.
Qed.

Lemma find_dir_lookup {A} d (k : node -> A) dflt cs :
  find_dir d k dflt cs =
  match lookup_dir d cs with Some c => k c | None => dflt end.
Proof.
  unfold lookup_dir. induction cs as [|[n c] cs IH]; simpl; [done|].
  by destruct (String.eqb n d).
Qed.

Lemma lookup_dir_elem d cs c : lookup_dir d cs = Some c → (d, c) ∈ cs.
Proof.
  unfold lookup_dir. induction cs as [|[n c'] cs IH]; simpl; [done|].
  destruct (String.eqb_spec n d) as [->|_].
  - intros [= ->]. left.
  - intros H. right. auto.
Qed.

(** ** The walk hands the loop body exactly the pruned traversal *)

Lemma os_walk_walked {W} excl (act : path -> list (string * fdata) -> M W unit) t :
  ∀ root w,
    os_walk (pruning_body excl act) root t w =
    for_each (walked excl root t) (fun v => act v.1 v.2) w.
Proof.
  induction t as [files subdirs IH] using node_ind'. intros root w.
  cbn [os_walk walked for_each]. unfold pruning_body at 1.
  unfold bind, ret. cbn [fst snd].
  destruct (act root files w) as [[[]|e] w1]; [|done].
  rewrite for_each_flat_map. apply for_each_ext. intros d w2 _.
  rewrite !find_dir_lookup.
  destruct (lookup_dir d subdirs) as [c|] eqn:Hd; [|done].
  apply lookup_dir_elem in Hd.
  rewrite Forall_forall in IH. apply (IH _ Hd).
Qed.

(** ** Pruning *)

Lemma single_file_body_pruning src excl dest :
  single_file_body src excl dest =
  pruning_body excl (fun r fs => for_each fs (single_entry src dest r)).
Proof. reflexivity. Qed.

Lemma per_file_body_pruning src excl dest :
  per_file_body src excl dest =
  pruning_body excl (fun r fs => for_each fs (per_file_entry src dest r)).
Proof. reflexivity. Qed.

Lemma by_modules_body_pruning src excl dest :
  by_modules_body src excl dest = pruning_body excl (module_act src dest).
Proof. reflexivity. Qed.

Lemma names_map_kept excl f cs :
  filter (λ d, d ∉ excl) (map fst (map_kept excl f cs)) =
  filter (λ d, d ∉ excl) (map fst cs).
Proof.
  induction cs as [|[n c] cs IH]; simpl; [done|].
  destruct (decide (n ∈ excl)) as [Hn|Hn]; simpl.
  - rewrite filter_cons_False by tauto. done.
  - rewrite !filter_cons_True by done. by rewrite IH.
Qed.

Lemma lookup_dir_map_kept excl f d cs :
  d ∉ excl → lookup_dir d (map_kept excl f cs) = f <$> lookup_dir d cs.
Proof.
  intros Hd. unfold lookup_dir. induction cs as [|[n c] cs IH]; simpl; [done|].
  destruct (decide (n ∈ excl)) as [Hn|Hn]; simpl.
  - destruct (String.eqb_spec n d) as [->|_]; [done|]. exact IH.
  - destruct (String.eqb n d); [done|]. exact IH.
Qed.

Lemma flat_map_ext_elem {A B} (f g : A -> list B) (l : list A) :
  (∀ x, x ∈ l → f x = g x) → flat_map f l = flat_map g l.
Proof.
  induction l as [|x l IH]; intros H; simpl; [done|].
  rewrite H by left. f_equal. apply IH. intros y Hy. apply H. by right.
Qed.

Lemma walked_erase excl t : ∀ root, walked excl root (erase excl t) = walked excl root t.
Proof.
  induction t as [files subdirs IH] using node_ind'. intros root.
  cbn [erase walked]. f_equal. rewrite names_map_kept.
  apply flat_map_ext_elem. intros d Hd.
  apply list_elem_of_filter in Hd as [Hd _].
  rewrite !find_dir_lookup, lookup_dir_map_kept by done.
  destruct (lookup_dir d subdirs) as [c|] eqn:Hc; [|done]. simpl.
  apply lookup_dir_elem in Hc. rewrite Forall_forall in IH. apply (IH _ Hc).
Qed.

Lemma walked_outside excl t :
  ∀ root v, v ∈ walked excl root t → ∃ p, v.1 = (root ++ p)%list ∧ outside excl p.
Proof.
  induction t as [files subdirs IH] using node_ind'. intros root v.
  cbn [walked]. intros [->|Hv]%elem_of_cons.
  - exists []. split; [by rewrite app_nil_r | constructor].
  - apply list_elem_of_In, in_flat_map in Hv as (d & Hd & Hv).
    apply list_elem_of_In, list_elem_of_filter in Hd as [Hd _].
    rewrite find_dir_lookup in Hv.
    destruct (lookup_dir d subdirs) as [c|] eqn:Hc; [|by destruct Hv].
    apply lookup_dir_elem in Hc. rewrite Forall_forall in IH.
    apply list_elem_of_In in Hv.
    destruct (IH _ Hc _ _ Hv) as (p & -> & Hp).
    exists (d :: p). split; [by rewrite <- app_assoc | by constructor].
Qed.

Lemma subtree_erase_outside excl t :
  ∀ p c, subtree (erase excl t) p = Some c → outside excl p.
Proof.
  induction t as [files subdirs IH] using node_ind'. intros [|d p] c; [constructor|].
  cbn [subtree erase node_subdirs].
  destruct (lookup_dir d (map_kept excl (erase excl) subdirs)) as [c'|] eqn:Hc; [|done].
  intros Hp.
  assert ((d ∉ excl) ∧ ∃ c0, (d, c0) ∈ subdirs ∧ c' = erase excl c0)
    as (Hd & c0 & Hc0 & ->).
  { clear -Hc. unfold lookup_dir in Hc.
    induction subdirs as [|[n c1] cs IHcs]; simpl in Hc; [done|].
    destruct (decide (n ∈ excl)) as [Hn|Hn]; simpl in Hc.
    - destruct (IHcs Hc) as (? & c0 & ? & ?). split; [done|]. exists c0. split; [by right|done].
    - destruct (String.eqb_spec n d) as [->|_].
      + injection Hc as <-. split; [done|]. exists c1. split; [left|done].
      + destruct (IHcs Hc) as (? & c0 & ? & ?). split; [done|]. exists c0. split; [by right|done]. }
  constructor; [done|]. rewrite Forall_forall in IH. exact (IH _ Hc0 _ _ Hp).
Qed.

(** C2: excluded directories are pruned before the walk descends.  The
    loop body of each mode prunes [dirs] in place, so the walk hands it only
    directories whose path holds no excluded name, and every run is the run
    on the tree with all excluded directories (at any depth) removed: nothing
    beneath them reaches any output. *)
Theorem C2_excluded_subtrees_pruned src excl mk t :
  (∀ dest single w,
     save_files_as_text src excl mk t dest single w =
     save_files_as_text src excl mk (erase excl t) dest single w) ∧
  (∀ dest w,
     save_files_as_text_by_modules src excl mk t dest w =
     save_files_as_text_by_modules src excl mk (erase excl t) dest w) ∧
  (∀ p c, subtree (erase excl t) p = Some c → outside excl p) ∧
  (∀ dest,
     single_file_body src excl dest =
       pruning_body excl (fun r fs => for_each fs (single_entry src dest r)) ∧
     per_file_body src excl dest =
       pruning_body excl (fun r fs => for_each fs (per_file_entry src dest r)) ∧
     by_modules_body src excl dest = pruning_body excl (module_act src dest)) ∧
  (∀ W (act : path -> list (string * fdata) -> M W unit) w,
     os_walk (pruning_body excl act) [] t w =
     for_each (walked excl [] t) (fun v => act v.1 v.2) w) ∧
  (∀ v, v ∈ walked excl [] t → outside excl v.1).
Proof.
  split_and!.
  - intros dest single w. unfold save_files_as_text, bind.
    destruct single.
    + destruct (open_w dest w) as [[[]|e] w1]; [|done].
      rewrite single_file_body_pruning, !os_walk_walked. by rewrite walked_erase.
    + destruct (ensure_dir mk w) as [[[]|e] w1]; [|done].
      rewrite per_file_body_pruning, !os_walk_walked. by rewrite walked_erase.
  - intros dest w. unfold save_files_as_text_by_modules, bind.
    destruct (ensure_dir mk w) as [[[]|e] w1]; [|done].
    rewrite by_modules_body_pruning, !os_walk_walked. by rewrite walked_erase.
  - apply subtree_erase_outside.
  - intros dest. split_and!; reflexivity.
  - intros W act w. apply os_walk_walked.
  - intros v Hv. destruct (walked_outside _ _ _ _ Hv) as (p & Hv1 & Hp).
    simpl in Hv1. by subst p.
Qed.

(** ** Strings *)

Lemma append_cons a (s1 s2 : string) : String a s1 ++ s2 = String a (s1 ++ s2).
Proof. reflexivity. Qed.

Lemma append_nil_l (s : string) : "" ++ s = s.
Proof. reflexivity. Qed.

Lemma append_nil_r (s : string) : s ++ "" = s.
Proof. induction s as [|a s IH]; [done|]. by rewrite append_cons, IH. Qed.

Lemma append_assoc (s1 s2 s3 : string) : (s1 ++ s2) ++ s3 = s1 ++ (s2 ++ s3).
Proof. induction s1 as [|a s1 IH]; [done|]. by rewrite !append_cons, IH. Qed.

Lemma cat_app (l1 l2 : list string) : cat (l1 ++ l2)%list = cat l1 ++ cat l2.
Proof.
  induction l1 as [|s l1 IH]; [done|].
  cbn [cat foldr app]. fold (cat (l1 ++ l2)%list) (cat l1). by rewrite IH, append_assoc.
Qed.

(** ** One iteration of each inner loop, as a function on the world *)

Lemma read_text_res {W} d (w : W) : read_text d w = (read_res d, w).
Proof. destruct d as [b|err]; simpl; [|done]. by destruct (utf8_valid b). Qed.

Lemma report_put p e w : report p e w = (Ok tt, put_line (report_line p e) w).
Proof. by destruct e. Qed.

Lemma extend_extend s1 s2 e : extend s2 (extend s1 e) = extend (s1 ++ s2) e.
Proof. destruct e; simpl; [|done]. by rewrite append_assoc. Qed.

Lemma alter_extend_extend s1 s2 (p : string) (m : gmap string dentry) :
  alter (extend s2) p (alter (extend s1) p m) = alter (extend (s1 ++ s2)) p m.
Proof.
  rewrite alter_alter_eq. apply alter_ext. intros e _. apply extend_extend.
Qed.

Lemma world_eq w1 w2 :
  dir_exists w1 = dir_exists w2 → fs_files w1 = fs_files w2 →
  console w1 = console w2 → opens w1 = opens w2 → w1 = w2.
Proof. destruct w1, w2; simpl; congruence. Qed.

Lemma single_entry_step src dest root f w :
  single_entry src dest root f w = (Ok tt, sf_step src dest root f w).
Proof.
  unfold single_entry, sf_step. destruct (eligible f.1); [|done].
  unfold try_except, bind. rewrite read_text_res.
  destruct (read_res f.2) as [c|e]; [|apply report_put].
  unfold write, modify. f_equal.
  apply world_eq; simpl; try done.
  rewrite !alter_extend_extend. unfold single_block.
  by rewrite !append_assoc.
Qed.

Lemma module_entry_step src p root f w :
  module_entry src p root f w = (Ok tt, mod_step src p root f w).
Proof.
  unfold module_entry, mod_step. destruct (eligible f.1); [|done].
  unfold try_except, bind. rewrite read_text_res.
  destruct (read_res f.2) as [c|e]; [|apply report_put].
  unfold write, modify. f_equal.
  apply world_eq; simpl; try done.
  rewrite !alter_extend_extend. unfold module_block.
  by rewrite !append_assoc.
Qed.

Lemma per_file_entry_step src dest root f w :
  per_file_entry src dest root f w = (Ok tt, pf_step src dest root f w).
Proof.
  unfold per_file_entry, pf_step. destruct (eligible f.1); [|done].
  unfold try_except, bind. rewrite read_text_res.
  destruct (read_res f.2) as [c|e]; [|apply report_put].
  unfold open_w.
  destruct (fs_files w !! os_path_join dest (f.1 ++ ".txt")) as [[c0|err]|] eqn:Hp;
    try apply report_put.
  all: unfold write, modify; f_equal; apply world_eq; simpl; try done.
  all: by rewrite alter_insert_eq.
Qed.

Lemma for_each_steps {A} (l : list A) (f : A -> M world unit)
    (g : A -> world -> world) :
  (∀ x w, f x w = (Ok tt, g x w)) →
  ∀ w, for_each l f w = (Ok tt, foldl (fun w x => g x w) w l).
Proof.
  intros Hfg. induction l as [|x l IH]; intros w; simpl; [done|].
  unfold bind. rewrite Hfg. apply IH.
Qed.

(** ** The entries a run emits and the diagnostics it prints *)

Lemma foldl_flat_map {A B C} (f : A -> C -> A) (g : B -> list C) (l : list B) a :
  foldl f a (flat_map g l) = foldl (fun a x => foldl f a (g x)) a l.
Proof.
  revert a. induction l as [|x l IH]; intros a; simpl; [done|].
  by rewrite foldl_app, IH.
Qed.

Lemma foldl_map {A B C} (f : A -> C -> A) (g : B -> C) (l : list B) a :
  foldl f a (map g l) = foldl (fun a x => f a (g x)) a l.
Proof. revert a. induction l as [|x l IH]; intros a; simpl; [done|]. by rewrite IH. Qed.

Lemma omap_cons_eq {A B} (f : A -> option B) x l :
  omap f (x :: l) = match f x with Some y => y :: omap f l | None => omap f l end.
Proof. reflexivity. Qed.

Lemma foldl_ext {A B} (f g : A -> B -> A) (l : list B) a :
  (∀ a x, f a x = g a x) → foldl f a l = foldl g a l.
Proof.
  intros H. revert a. induction l as [|x l IH]; intros a; simpl; [done|].
  by rewrite H, IH.
Qed.

(** A loop over the walk that runs a per-file step on every file is a fold
    of that step over the listing. *)
Lemma walk_files_fold excl (entry : path -> string * fdata -> M world unit)
    (step : path -> string * fdata -> world -> world) t w :
  (∀ r f w, entry r f w = (Ok tt, step r f w)) →
  os_walk (pruning_body excl (fun r fs => for_each fs (entry r))) [] t w =
  (Ok tt, foldl (fun w x => step x.1 x.2 w) w (listing excl t)).
Proof.
  intros Hstep. rewrite os_walk_walked.
  rewrite (for_each_steps _ _ (fun v w => foldl (fun w f => step v.1 f w) w v.2)).
  - unfold listing. rewrite foldl_flat_map. f_equal.
    apply foldl_ext. intros w1 v. by rewrite foldl_map.
  - intros v w1. by apply for_each_steps.
Qed.

(** *** SingleFile *)

Lemma sf_fold src dest l : ∀ w c0,
  fs_files w !! dest = Some (Content c0) →
  foldl (fun w x => sf_step src dest x.1 x.2 w) w l =
  World (dir_exists w)
        (<[dest := Content (c0 ++ cat (map (fun e => single_block e.1.2 e.2) (omap emit l)))]>
           (fs_files w))
        (console w ++ omap (failure src) l)%list
        (opens w).
Proof.
  induction l as [|[r f] l IH]; intros w c0 Hw.
  - simpl. apply world_eq; simpl; try done.
    + by rewrite append_nil_r, insert_id.
    + by rewrite app_nil_r.
  - cbn [foldl]. rewrite !omap_cons_eq.
    unfold sf_step at 2, emit at 1, failure at 1. cbn [fst snd].
    destruct (eligible f.1); [|by apply IH].
    destruct (read_res f.2) as [c|e].
    + erewrite IH.
      2:{ simpl. rewrite lookup_alter_eq, Hw. reflexivity. }
      apply world_eq; simpl; try done.
      rewrite (alter_alt_Some _ _ _ _ Hw), insert_insert_eq. cbn [extend].
      do 2 f_equal. cbn [map cat foldr fst snd]. by rewrite append_assoc.
    + erewrite IH by exact Hw. apply world_eq; simpl; try done.
      by rewrite <- app_assoc.
Qed.

Lemma single_mode_run src excl mk t dest w :
  ¬ blocked (fs_files w) dest →
  save_files_as_text src excl mk t dest true w =
  (Ok tt,
   World (dir_exists w)
         (<[dest := Content (cat (map (fun e => single_block e.1.2 e.2) (emitted excl t)))]>
            (fs_files w))
         (console w ++ failures src excl t)%list
         (opens w ++ [(ModeW, dest)])%list).
Proof.
  intros Hnb. unfold save_files_as_text, bind, open_w.
  assert (∀ err, fs_files w !! dest ≠ Some (Blocked err)) as Hnb'.
  { intros err H. apply Hnb. by exists err. }
  set (w1 := opened ModeW dest (set_files <[dest:=Content ""]> w)).
  assert (os_walk (single_file_body src excl dest) [] t w1 =
          (Ok tt, World (dir_exists w)
             (<[dest := Content (cat (map (fun e => single_block e.1.2 e.2) (emitted excl t)))]>
                (fs_files w))
             (console w ++ failures src excl t)%list
             (opens w ++ [(ModeW, dest)])%list)) as Hrun.
  { rewrite single_file_body_pruning.
    rewrite (walk_files_fold _ _ (sf_step src dest)) by apply single_entry_step.
    rewrite (sf_fold _ _ _ _ "") by (simpl; apply lookup_insert_eq).
    f_equal. apply world_eq; simpl; try done. by rewrite insert_insert_eq. }
  destruct (fs_files w !! dest) as [[c0|err]|] eqn:Hd; try exact Hrun.
  by destruct (Hnb' err).
Qed.

(** C9: a failed read writes nothing in SingleFile mode.  An iteration on
    an eligible file whose read raises leaves every destination file and the
    list of opens as they were and prints one diagnostic; the file has no
    entry among those the run emits. *)
Theorem C9_single_file_failure_writes_nothing src dest root f e w :
  eligible f.1 = true →
  read_text f.2 w = (Raise e, w) →
  ∃ w',
    single_entry src dest root f w = (Ok tt, w') ∧
    fs_files w' = fs_files w ∧
    opens w' = opens w ∧
    console w' = (console w ++ [report_line (src_path src root f.1) e])%list ∧
    emit (root, f) = None.
Proof.
  intros Hel Hread. rewrite read_text_res in Hread.
  assert (read_res f.2 = Raise e) as Hres by congruence.
  eexists. split; [apply single_entry_step|].
  unfold sf_step, emit. cbn [fst snd]. rewrite Hel, Hres. done.
Qed.

Lemma C9_single_file_failure_witness :
  eligible ("bad.py", Unreadable "Permission denied").1 = true ∧
  read_text ("bad.py", Unreadable "Permission denied").2 fresh =
    (Raise (OSError "Permission denied"), fresh) ∧
  ∃ w',
    single_entry "root" "out.txt" ["sub"] ("bad.py", Unreadable "Permission denied") fresh
      = (Ok tt, w') ∧
    fs_files w' = fs_files fresh ∧
    opens w' = opens fresh ∧
    console w' =
      (console fresh ++
       [report_line (src_path "root" ["sub"] "bad.py") (OSError "Permission denied")])%list ∧
    emit (["sub"], ("bad.py", Unreadable "Permission denied")) = None.
Proof.
  split; [reflexivity|]. split; [reflexivity|].
  apply (C9_single_file_failure_writes_nothing "root" "out.txt" ["sub"]
           ("bad.py", Unreadable "Permission denied") (OSError "Permission denied") fresh);
    reflexivity.
Defined.

(** *** PerFile *)

Lemma pf_step_dir src dest r f w : dir_exists (pf_step src dest r f w) = dir_exists w.
Proof.
  unfold pf_step. destruct (eligible f.1); [|done].
  destruct (read_res f.2); [|done].
  by destruct (fs_files w !! os_path_join dest (f.1 ++ ".txt")) as [[]|].
Qed.

Lemma pf_run_dir src dest l w : dir_exists (pf_run src dest l w) = dir_exists w.
Proof.
  unfold pf_run. revert w. induction l as [|x l IH]; intros w; simpl; [done|].
  by rewrite IH, pf_step_dir.
Qed.

Lemma pf_run_snoc src dest l x w :
  pf_run src dest (l ++ [x])%list w = pf_step src dest x.1 x.2 (pf_run src dest l w).
Proof. unfold pf_run. by rewrite foldl_snoc. Qed.

Lemma omap_snoc {A B} (f : A -> option B) l x :
  omap f (l ++ [x])%list = (omap f l ++ match f x with Some y => [y] | None => [] end)%list.
Proof. rewrite omap_app. simpl. by destruct (f x). Qed.

Lemma pf_run_lookup src dest l w k :
  ¬ blocked (fs_files w) k →
  fs_files (pf_run src dest l w) !! k =
  match last_write dest k (omap emit l) with
  | Some e => Some (Content e.2)
  | None => fs_files w !! k
  end.
Proof.
  intros Hnb. induction l as [|[r f] l IH] using rev_ind; [done|].
  rewrite pf_run_snoc, omap_snoc. unfold last_write in *. rewrite filter_app.
  set (w1 := pf_run src dest l w) in *.
  assert (¬ blocked (fs_files w1) k) as Hnb1.
  { intros [err Herr]. rewrite Herr in IH.
    destruct (last _); [done|]. apply Hnb. by exists err. }
  unfold pf_step, emit at 2. cbn [fst snd].
  destruct (eligible f.1); [|by rewrite app_nil_r].
  destruct (read_res f.2) as [c|e]; [|by rewrite app_nil_r].
  fold (dest_key dest f.1).
  rewrite filter_cons. cbn [fst snd].
  destruct (decide (dest_key dest f.1 = k)) as [Hk|Hk].
  - rewrite filter_nil, last_snoc. subst k.
    destruct (fs_files w1 !! dest_key dest f.1) as [[c0|err]|] eqn:Hd; simpl.
    + by rewrite lookup_insert_eq.
    + destruct Hnb1. by exists err.
    + by rewrite lookup_insert_eq.
  - rewrite filter_nil, app_nil_r.
    destruct (fs_files w1 !! dest_key dest f.1) as [[c0|err]|] eqn:Hd; simpl;
      try done; by rewrite lookup_insert_ne.
Qed.

Lemma pf_run_blocked src dest l w k err :
  fs_files w !! k = Some (Blocked err) →
  fs_files (pf_run src dest l w) !! k = Some (Blocked err).
Proof.
  intros Hb. induction l as [|[r f] l IH] using rev_ind; [done|].
  rewrite pf_run_snoc. set (w1 := pf_run src dest l w) in *.
  unfold pf_step. cbn [fst snd].
  destruct (eligible f.1); [|done].
  destruct (read_res f.2) as [c|e]; [|done].
  destruct (fs_files w1 !! os_path_join dest (f.1 ++ ".txt")) as [[c0|err']|] eqn:Hd;
    simpl; try done.
  all: rewrite lookup_insert_ne; [done|]; intros <-; congruence.
Qed.

Lemma ensure_dir_cases mk w :
  (∃ err, dir_exists w = false ∧ mk = Some err ∧
          ensure_dir mk w = (Raise (OSError err), w)) ∨
  ((dir_exists w = true ∨ mk = None) ∧
   ensure_dir mk w =
     (Ok tt, World true (fs_files w) (console w) (opens w))).
Proof.
  unfold ensure_dir, makedirs. destruct w as [[] m c o]; simpl.
  - right. split; [by left|done].
  - destruct mk as [err|].
    + left. by exists err.
    + right. split; [by right|done].
Qed.

Lemma per_file_mode_run src excl mk t dest w :
  dir_exists w = true ∨ mk = None →
  save_files_as_text src excl mk t dest false w =
  (Ok tt, pf_run src dest (listing excl t)
            (World true (fs_files w) (console w) (opens w))).
Proof.
  intros Hok. unfold save_files_as_text, bind.
  destruct (ensure_dir_cases mk w) as [(err & Hd & Hmk & _)|[_ ->]].
  { destruct Hok; congruence. }
  rewrite per_file_body_pruning.
  by rewrite (walk_files_fold _ _ (pf_step src dest)) by apply per_file_entry_step.
Qed.

Lemma single_mode_blocked src excl mk t dest w err :
  fs_files w !! dest = Some (Blocked err) →
  save_files_as_text src excl mk t dest true w = (Raise (OSError err), w).
Proof. intros H. unfold save_files_as_text, bind, open_w. by rewrite H. Qed.

Lemma mode_makedirs_fails src excl mk t dest w err :
  dir_exists w = false → mk = Some err →
  save_files_as_text src excl mk t dest false w = (Raise (OSError err), w).
Proof.
  intros Hd ->. unfold save_files_as_text, bind, ensure_dir, makedirs. by rewrite Hd.
Qed.

Lemma blocked_dec (m : gmap string dentry) k : blocked m k ∨ ¬ blocked m k.
Proof.
  unfold blocked. destruct (m !! k) as [[c|err]|].
  - right. by intros [? [=]].
  - left. by exists err.
  - right. by intros [? [=]].
Qed.

(** C4: SingleFile and PerFile runs are idempotent on the destination.  A
    second run over the same tree ends as the first did (completed or
    aborted) and leaves every destination file exactly as the first run left
    it, since each destination file is opened with truncation. *)
Theorem C4_rerun_same_destination src excl mk t dest single w :
  let r1 := save_files_as_text src excl mk t dest single w in
  let r2 := save_files_as_text src excl mk t dest single r1.2 in
  r2.1 = r1.1 ∧ fs_files r2.2 = fs_files r1.2.
Proof.
  destruct single; cbn zeta.
  - destruct (blocked_dec (fs_files w) dest) as [[err Hb]|Hnb].
    + rewrite (single_mode_blocked _ _ _ _ _ _ _ Hb). cbn [fst snd].
      by rewrite (single_mode_blocked _ _ _ _ _ _ _ Hb).
    + rewrite (single_mode_run _ _ _ _ _ _ Hnb). cbn [fst snd].
      rewrite single_mode_run.
      * cbn [fst snd fs_files]. split; [done|]. by rewrite insert_insert_eq.
      * cbn [fs_files]. intros [err Herr]. by rewrite lookup_insert_eq in Herr.
  - destruct (ensure_dir_cases mk w) as [(err & Hd & Hmk & _)|[Hok _]].
    + rewrite (mode_makedirs_fails _ _ _ _ _ _ _ Hd Hmk). cbn [fst snd].
      by rewrite (mode_makedirs_fails _ _ _ _ _ _ _ Hd Hmk).
    + rewrite (per_file_mode_run _ _ _ _ _ _ Hok). cbn [fst snd].
      rewrite per_file_mode_run by (left; by rewrite pf_run_dir).
      cbn [fst snd]. split; [done|].
      set (w0 := World true (fs_files w) (console w) (opens w)).
      set (w1 := pf_run src dest (listing excl t) w0).
      apply map_eq. intros k.
      destruct (blocked_dec (fs_files w0) k) as [[err Hb]|Hnb].
      * rewrite (pf_run_blocked _ _ _ _ _ err).
        -- symmetry. by apply pf_run_blocked.
        -- cbn [fs_files]. by apply pf_run_blocked.
      * pose proof (pf_run_lookup src dest (listing excl t) w0 k Hnb) as H1.
        fold w1 in H1.
        rewrite pf_run_lookup.
        -- cbn [fs_files]. by destruct (last_write _ _ _).
        -- cbn [fs_files]. intros [err Herr]. rewrite Herr in H1.
           destruct (last_write _ _ _); [done|]. apply Hnb. by exists err.
Qed.

(** ** The traversal and path resolution *)

Lemma lookup_dir_names d cs c : lookup_dir d cs = Some c → d ∈ map fst cs.
Proof.
  intros H%lookup_dir_elem. apply list_elem_of_fmap. by exists (d, c).
Qed.

(** Every directory handed to the loop body is the one its path resolves
    to, and no name on that path is excluded. *)
Lemma walked_subtree excl t :
  ∀ root v, v ∈ walked excl root t →
    ∃ q c, v.1 = (root ++ q)%list ∧ outside excl q ∧
           subtree t q = Some c ∧ node_files c = v.2.
Proof.
  induction t as [files subdirs IH] using node_ind'. intros root v.
  cbn [walked]. intros [->|Hv]%elem_of_cons.
  - exists [], (Dir files subdirs). split_and!; try done.
    + by rewrite app_nil_r.
    + constructor.
  - apply list_elem_of_In, in_flat_map in Hv as (d & Hd & Hv).
    apply list_elem_of_In, list_elem_of_filter in Hd as [Hd _].
    rewrite find_dir_lookup in Hv.
    destruct (lookup_dir d subdirs) as [c|] eqn:Hc; [|by destruct Hv].
    pose proof (lookup_dir_elem _ _ _ Hc) as Hin. rewrite Forall_forall in IH.
    apply list_elem_of_In in Hv.
    destruct (IH _ Hin _ _ Hv) as (q & c' & Hq & Hout & Hsub & Hfiles).
    exists (d :: q), c'. split_and!; try done.
    + by rewrite Hq, <- app_assoc.
    + by constructor.
    + cbn [subtree node_subdirs]. by rewrite Hc.
Qed.

(** Every directory whose path holds no excluded name is handed to the loop
    body. *)
Lemma subtree_walked excl q :
  ∀ t root c, subtree t q = Some c → outside excl q →
    ((root ++ q)%list, node_files c) ∈ walked excl root t.
Proof.
  induction q as [|d q IH]; intros [files subdirs] root c Hsub Hout.
  - injection Hsub as <-. rewrite app_nil_r. cbn [walked node_files]. left.
  - cbn [subtree node_subdirs] in Hsub.
    destruct (lookup_dir d subdirs) as [c1|] eqn:Hc; [|done].
    apply Forall_cons in Hout as [Hd Hout].
    cbn [walked]. right. apply list_elem_of_In, in_flat_map.
    exists d. split.
    + apply list_elem_of_In, list_elem_of_filter. split; [done|].
      by eapply lookup_dir_names.
    + rewrite find_dir_lookup, Hc. apply list_elem_of_In.
      replace (root ++ d :: q)%list with ((root ++ [d]) ++ q)%list
        by (by rewrite <- app_assoc).
      by apply IH.
Qed.

(** The listing holds exactly the files of the tree that stand outside every
    excluded directory. *)
Lemma listing_file_at excl t p f d :
  (p, (f, d)) ∈ listing excl t ↔ file_at t p f d ∧ outside excl p.
Proof.
  unfold listing, file_at. rewrite list_elem_of_In, in_flat_map. split.
  - intros ([r fs] & Hv & Hx). apply list_elem_of_In in Hv.
    apply in_map_iff in Hx as (fd & [= <- <-] & Hfd).
    destruct (walked_subtree _ _ _ _ Hv) as (q & c & Hq & Hout & Hsub & Hfiles).
    simpl in Hq, Hfiles. subst q fs. split; [|done].
    exists c. split; [done|]. by apply list_elem_of_In.
  - intros [(c & Hsub & Hf) Hout].
    exists (p, node_files c). split.
    + apply list_elem_of_In. by apply (subtree_walked excl p t []).
    + apply in_map_iff. exists (f, d). split; [done|]. by apply list_elem_of_In.
Qed.

(** ** Well-formed trees and destination paths *)

Lemma wf_node_inv files subdirs :
  wf_node (Dir files subdirs) →
  NoDup (map fst files ++ map fst subdirs)%list ∧
  Forall sep_free (map fst files ++ map fst subdirs)%list ∧
  Forall (λ nc, wf_node nc.2) subdirs.
Proof.
  cbn [wf_node]. intros (Hnd & Hsep & Hall). split_and!; try done.
  induction subdirs as [|[n c] cs IH]; [constructor|].
  destruct Hall as [Hc Hall]. constructor; [done|].
  apply IH.
  - rewrite map_cons in Hnd. apply NoDup_app in Hnd as (H1 & H2 & H3).
    apply NoDup_app. split_and!; [done| |by apply NoDup_cons in H3 as [_ ?]].
    intros x Hx Hx'. apply (H2 x Hx). by right.
  - rewrite map_cons in Hsep. apply Forall_app in Hsep as [H1 H2].
    apply Forall_app. split; [done|]. by apply Forall_cons in H2 as [_ ?].
  - done.
Qed.

Lemma wf_subtree p : ∀ t c, wf_node t → subtree t p = Some c → wf_node c.
Proof.
  induction p as [|d p IH]; intros [files subdirs] c Hwf Hsub.
  - by injection Hsub as <-.
  - cbn [subtree node_subdirs] in Hsub.
    destruct (lookup_dir d subdirs) as [c1|] eqn:Hc; [|done].
    apply wf_node_inv in Hwf as (_ & _ & Hall).
    rewrite Forall_forall in Hall.
    apply (IH c1 c); [|done]. exact (Hall _ (lookup_dir_elem _ _ _ Hc)).
Qed.

Lemma NoDup_fst_functional {A B} (l : list (A * B)) x y1 y2 :
  NoDup (map fst l) → (x, y1) ∈ l → (x, y2) ∈ l → y1 = y2.
Proof.
  induction l as [|[a b] l IH]; intros Hnd H1 H2; [by apply elem_of_nil in H1|].
  simpl in Hnd. apply NoDup_cons in Hnd as [Ha Hnd].
  apply elem_of_cons in H1 as [H1|H1]; apply elem_of_cons in H2 as [H2|H2].
  - congruence.
  - injection H1 as -> ->. destruct Ha. apply list_elem_of_fmap. by exists (a, y2).
  - injection H2 as -> ->. destruct Ha. apply list_elem_of_fmap. by exists (a, y1).
  - by apply IH.
Qed.

Lemma file_at_sep_free t p f d : wf_node t → file_at t p f d → sep_free f.
Proof.
  intros Hwf (c & Hs & Hf).
  pose proof (wf_subtree _ _ _ Hwf Hs) as Hc. destruct c as [files subdirs].
  apply wf_node_inv in Hc as (_ & Hsep & _). apply Forall_app in Hsep as [Hsep _].
  rewrite Forall_forall in Hsep. apply Hsep.
  apply list_elem_of_fmap. eexists. split; [|exact Hf]. done.
Qed.

Lemma length_append (s1 s2 : string) :
  String.length (s1 ++ s2) = String.length s1 + String.length s2.
Proof. induction s1 as [|a s1 IH]; [done|]. rewrite append_cons. simpl. by rewrite IH. Qed.

Lemma append_inj_r (s1 s2 t : string) : s1 ++ t = s2 ++ t → s1 = s2.
Proof.
  revert s2. induction s1 as [|a s1 IH]; intros [|b s2] H.
  - done.
  - apply (f_equal String.length) in H.
    rewrite !length_append in H. simpl in H. lia.
  - apply (f_equal String.length) in H.
    rewrite !length_append in H. simpl in H. lia.
  - rewrite !append_cons in H. injection H as -> H. f_equal. by apply IH.
Qed.

Lemma sep_free_no_root (f suffix : string) :
  sep_free f → is_abs (f ++ suffix) = false ∨ f = "".
Proof.
  unfold sep_free. destruct f as [|a f]; [by right|]. left.
  rewrite append_cons. simpl in *.
  by destruct (Ascii.eqb a "/"%char).
Qed.

Lemma dest_key_inj dest f1 f2 :
  sep_free f1 → sep_free f2 → dest_key dest f1 = dest_key dest f2 → f1 = f2.
Proof.
  intros H1 H2. unfold dest_key, os_path_join.
  assert (∀ f, sep_free f → is_abs (f ++ ".txt") = false) as Hp.
  { intros f Hf. destruct (sep_free_no_root f ".txt" Hf) as [?| ->]; done. }
  rewrite !Hp by done.
  destruct (String.eqb dest "" || endswith dest "/"); intros H.
  - apply String.app_inj in H. by apply append_inj_r in H.
  - apply String.app_inj in H. apply String.app_inj in H. by apply append_inj_r in H.
Qed.

Lemma universal_newlines_cr_free b : cr_free b = true → universal_newlines b = b.
Proof.
  induction b as [|a b IH]; [done|]. simpl.
  destruct (Ascii.eqb a "013"%char); simpl; [done|].
  intros H. by rewrite IH.
Qed.

Lemma emitted_elem excl t e :
  e ∈ emitted excl t ↔
  ∃ d, file_at t e.1.1 e.1.2 d ∧ outside excl e.1.1 ∧
       eligible e.1.2 = true ∧ read_res d = Ok e.2.
Proof.
  unfold emitted. rewrite list_elem_of_omap. split.
  - intros ([p [f d]] & Hx & He). apply listing_file_at in Hx as [Hat Hout].
    unfold emit in He. cbn [fst snd] in He.
    destruct (eligible f) eqn:Hel; [|done].
    destruct (read_res d) as [c|] eqn:Hr; [|done].
    injection He as <-. by exists d.
  - destruct e as [[p f] c]. intros (d & Hat & Hout & Hel & Hr). cbn [fst snd] in *.
    exists (p, (f, d)). split; [by apply listing_file_at|].
    unfold emit. cbn [fst snd]. by rewrite Hel, Hr.
Qed.

Lemma last_filter_elem {A} (P : A -> Prop) `{∀ x, Decision (P x)} (l : list A) x :
  x ∈ l → P x → ∃ y, last (filter P l) = Some y ∧ y ∈ l ∧ P y.
Proof.
  intros Hx HP.
  assert (x ∈ filter P l) as Hin by (by apply list_elem_of_filter).
  destruct (last (filter P l)) as [y|] eqn:Hlast.
  - exists y. split; [done|].
    apply last_Some in Hlast as [l' Hl'].
    assert (y ∈ filter P l) as Hy.
    { rewrite Hl'. apply elem_of_app. right. left. }
    apply list_elem_of_filter in Hy as [? ?]. done.
  - apply last_None in Hlast. rewrite Hlast in Hin. by apply elem_of_nil in Hin.
Qed.

(** ** Concrete trees *)

Ltac by_compute := vm_compute; reflexivity.

Lemma wf_scenario : wf_node scenario.
Proof.
  cbn [wf_node scenario map fst app]. unfold sep_free.
  repeat match goal with
         | |- _ ∧ _ => split
         | |- NoDup _ => apply (bool_decide_unpack _); by_compute
         | |- Forall _ _ => constructor
         | |- True => exact I
         | |- _ = _ => reflexivity
         end.
Qed.

Lemma emitted_scenario :
  emitted ["target"] scenario = [([], "a.py", "x=1"); (["sub"], "b.py", "y=2")].
Proof. by_compute. Qed.

(** C3 as stated fails: [a/x.py] is eligible and decodes to ["1"], yet after
    a PerFile run [x.py.txt] holds ["2"], the text of [b/x.py] written over
    it; and [c.py.txt] holds a lone LF where [c.py] holds CR LF. *)
Lemma C3_counterexample :
  file_at collide ["a"] "x.py" (Bytes "1") ∧
  eligible "x.py" = true ∧ utf8_valid "1" = true ∧
  ∃ w',
    save_files_as_text "root" ["target"] None collide "out" false fresh = (Ok tt, w') ∧
    fs_files w' !! "out/x.py.txt" = Some (Content "2") ∧
    fs_files w' !! "out/x.py.txt" ≠ Some (Content "1") ∧
    fs_files w' !! "out/c.py.txt" = Some (Content ("p" ++ LF ++ "q")) ∧
    fs_files w' !! "out/c.py.txt" ≠ Some (Content ("p" ++ CR ++ LF ++ "q")).
Proof.
  split; [|split; [reflexivity|split; [reflexivity|]]].
  - eexists. split; [reflexivity|]. simpl. left.
  - eexists. split; [by_compute|]. split_and!.
    + by_compute.
    + vm_compute. discriminate.
    + by_compute.
    + vm_compute. discriminate.
Qed.

(** *** PerModule *)

Lemma mod_fold src p r fs : ∀ w c0,
  fs_files w !! p = Some (Content c0) →
  foldl (fun w f => mod_step src p r f w) w fs =
  World (dir_exists w)
        (<[p := Content (c0 ++ cat (dir_blocks (r, fs)))]> (fs_files w))
        (console w ++ dir_failures src (r, fs))%list
        (opens w).
Proof.
  unfold dir_blocks, dir_failures. cbn [fst snd].
  induction fs as [|f fs IH]; intros w c0 Hw.
  - simpl. apply world_eq; simpl; try done.
    + by rewrite append_nil_r, insert_id.
    + by rewrite app_nil_r.
  - cbn [foldl map]. rewrite !omap_cons_eq.
    unfold mod_step at 2, emit at 1, failure at 1. cbn [fst snd].
    destruct (eligible f.1); [|by apply IH].
    destruct (read_res f.2) as [c|e].
    + erewrite IH.
      2:{ simpl. rewrite lookup_alter_eq, Hw. reflexivity. }
      apply world_eq; simpl; try done.
      rewrite (alter_alt_Some _ _ _ _ Hw), insert_insert_eq. cbn [extend].
      do 2 f_equal. cbn [map cat foldr fst snd]. by rewrite append_assoc.
    + erewrite IH by exact Hw. apply world_eq; simpl; try done.
      by rewrite <- app_assoc.
Qed.

Lemma module_act_root src dest fs w :
  module_act src dest [] fs w =
  (Ok tt, pf_run src dest (map (pair []) fs) w).
Proof.
  unfold module_act. case_decide; [|done].
  rewrite (for_each_steps _ _ (pf_step src dest [])) by apply per_file_entry_step.
  unfold pf_run. by rewrite foldl_map.
Qed.

Lemma module_act_below src dest r fs w :
  r ≠ [] → ¬ blocked (fs_files w) (mkey dest r) →
  module_act src dest r fs w = (Ok tt, md_step src dest (r, fs) w).
Proof.
  intros Hr Hnb. unfold module_act. case_decide; [done|].
  cbv zeta. fold (mkey dest r). unfold bind, open_a, md_step, prior. cbn [fst snd].
  destruct (fs_files w !! mkey dest r) as [[c0|err]|] eqn:Hk.
  - rewrite (for_each_steps _ _ (mod_step src (mkey dest r) r))
      by apply module_entry_step.
    rewrite (mod_fold _ _ _ _ _ c0) by done. done.
  - destruct Hnb. by exists err.
  - rewrite (for_each_steps _ _ (mod_step src (mkey dest r) r))
      by apply module_entry_step.
    rewrite (mod_fold _ _ _ _ _ "") by (simpl; apply lookup_insert_eq).
    f_equal. apply world_eq; simpl; try done. by rewrite insert_insert_eq.
Qed.

Lemma module_act_blocked src dest r fs w err :
  r ≠ [] → fs_files w !! mkey dest r = Some (Blocked err) →
  module_act src dest r fs w = (Raise (OSError err), w).
Proof.
  intros Hr Hb. unfold module_act. case_decide; [done|].
  cbv zeta. fold (mkey dest r). unfold bind, open_a. by rewrite Hb.
Qed.

Lemma md_step_blocked src dest v w k :
  ¬ blocked (fs_files w) (mkey dest v.1) →
  blocked (fs_files (md_step src dest v w)) k ↔ blocked (fs_files w) k.
Proof.
  intros Hnb. unfold md_step, blocked. cbn [fs_files].
  destruct (decide (mkey dest v.1 = k)) as [<-|Hne].
  - rewrite lookup_insert_eq. split; [by intros [? [=]]|].
    intros H. by destruct Hnb.
  - by rewrite lookup_insert_ne.
Qed.

Lemma md_run_blocked src dest vs : ∀ w k,
  (∀ v, v ∈ vs → ¬ blocked (fs_files w) (mkey dest v.1)) →
  blocked (fs_files (md_run src dest vs w)) k ↔ blocked (fs_files w) k.
Proof.
  induction vs as [|v vs IH]; intros w k Hnb; [done|].
  cbn [md_run foldl]. fold (md_run src dest vs (md_step src dest v w)).
  assert (¬ blocked (fs_files w) (mkey dest v.1)) as Hv by (apply Hnb; left).
  rewrite IH; [by apply md_step_blocked|].
  intros v' Hv'. rewrite md_step_blocked by done. apply Hnb. by right.
Qed.

(** The loop over the directories below the root runs to its end when none
    of their destination files is blocked. *)
Lemma modules_loop_ok src dest vs : ∀ w,
  (∀ v, v ∈ vs → v.1 ≠ []) →
  (∀ v, v ∈ vs → ¬ blocked (fs_files w) (mkey dest v.1)) →
  for_each vs (fun v => module_act src dest v.1 v.2) w =
  (Ok tt, md_run src dest vs w).
Proof.
  induction vs as [|v vs IH]; intros w Hne Hnb; [done|].
  cbn [for_each]. unfold bind.
  assert (¬ blocked (fs_files w) (mkey dest v.1)) as Hv by (apply Hnb; left).
  rewrite module_act_below by (done || apply Hne; left).
  destruct v as [r fs]. cbn [fst snd]. rewrite IH; [done| |].
  - intros v' Hv'. apply Hne. by right.
  - intros v' Hv'. rewrite md_step_blocked by done. apply Hnb. by right.
Qed.


Lemma walked_root excl t :
  walked excl [] t = ([], node_files t) :: sub_walked excl t.
Proof. by destruct t. Qed.

Lemma sub_walked_top excl t v :
  v ∈ sub_walked excl t →
  ∃ d q c, v.1 = d :: q ∧ d ∈ map fst (node_subdirs t) ∧ (d ∉ excl) ∧
           outside excl q ∧ subtree t (d :: q) = Some c ∧ node_files c = v.2.
Proof.
  destruct t as [files subdirs]. unfold sub_walked. cbn [walked tail node_subdirs].
  intros Hv. apply list_elem_of_In, in_flat_map in Hv as (d & Hd & Hv).
  apply list_elem_of_In, list_elem_of_filter in Hd as [Hd Hdn].
  rewrite find_dir_lookup in Hv.
  destruct (lookup_dir d subdirs) as [c1|] eqn:Hc; [|by destruct Hv].
  apply list_elem_of_In in Hv.
  destruct (walked_subtree _ _ _ _ Hv) as (q & c & Hq & Hout & Hsub & Hfiles).
  exists d, q, c. split_and!; try done.
  cbn [subtree node_subdirs]. by rewrite Hc.
Qed.

Lemma lookup_dir_is_Some d cs : d ∈ map fst cs → is_Some (lookup_dir d cs).
Proof.
  unfold lookup_dir. induction cs as [|[n c] cs IH]; simpl.
  - by intros ?%elem_of_nil.
  - intros [->|H]%elem_of_cons.
    + rewrite String.eqb_refl. by eexists.
    + destruct (String.eqb n d); [by eexists|by apply IH].
Qed.

Lemma top_walked excl t d :
  d ∈ map fst (node_subdirs t) → d ∉ excl →
  ∃ v, v ∈ sub_walked excl t ∧ v.1 = [d].
Proof.
  intros Hd Hex. destruct (lookup_dir_is_Some _ _ Hd) as [c Hc].
  assert (subtree t [d] = Some c) as Hsub.
  { cbn [subtree]. by rewrite Hc. }
  assert (outside excl [d]) as Hout by (by repeat constructor).
  pose proof (subtree_walked excl [d] t [] c Hsub Hout) as Hin.
  rewrite walked_root in Hin. apply elem_of_cons in Hin as [[=]|Hin].
  by exists ([d], node_files c).
Qed.

Lemma pf_run_blocked_iff src dest l w k :
  blocked (fs_files (pf_run src dest l w)) k ↔ blocked (fs_files w) k.
Proof.
  split.
  - intros [err Herr]. destruct (blocked_dec (fs_files w) k) as [|Hnb]; [done|].
    rewrite pf_run_lookup in Herr by done.
    destruct (last_write _ _ _); [done|]. by exists err.
  - intros [err Herr]. exists err. by apply pf_run_blocked.
Qed.

Lemma sub_walked_below excl t v : v ∈ sub_walked excl t → v.1 ≠ [].
Proof. intros (d & q & c & -> & _)%sub_walked_top. done. Qed.

Lemma by_modules_run src excl mk t dest w :
  dir_exists w = true ∨ mk = None →
  (∀ v, v ∈ sub_walked excl t → ¬ blocked (fs_files w) (mkey dest v.1)) →
  save_files_as_text_by_modules src excl mk t dest w =
  (Ok tt, modules_end src dest excl t w).
Proof.
  intros Hok Hnb. unfold save_files_as_text_by_modules, bind.
  destruct (ensure_dir_cases mk w) as [(err & Hd & Hmk & _)|[_ ->]].
  { destruct Hok; congruence. }
  rewrite by_modules_body_pruning, os_walk_walked, walked_root.
  cbn [for_each fst snd]. unfold bind. rewrite module_act_root.
  apply modules_loop_ok.
  - apply sub_walked_below.
  - intros v Hv. rewrite pf_run_blocked_iff. by apply Hnb.
Qed.


(** *** What a destination path holds after the loop over the directories *)

Lemma md_step_prior src dest v w k :
  prior (fs_files (md_step src dest v w)) k =
  prior (fs_files w) k ++
  cat (if decide (mkey dest v.1 = k) then dir_blocks v else []).
Proof.
  unfold md_step, prior at 1. cbn [fs_files].
  destruct (decide (mkey dest v.1 = k)) as [<-|Hne].
  - by rewrite lookup_insert_eq.
  - rewrite lookup_insert_ne by done. fold (prior (fs_files w) k).
    by rewrite append_nil_r.
Qed.

Lemma md_run_prior src dest vs : ∀ w k,
  prior (fs_files (md_run src dest vs w)) k =
  prior (fs_files w) k ++ cat (blocks_for dest k vs).
Proof.
  induction vs as [|v vs IH]; intros w k.
  - simpl. by rewrite append_nil_r.
  - cbn [md_run foldl]. fold (md_run src dest vs (md_step src dest v w)).
    rewrite IH, md_step_prior. unfold blocks_for. cbn [flat_map].
    by rewrite cat_app, append_assoc.
Qed.

Lemma md_run_untouched src dest vs : ∀ w k,
  (∀ v, v ∈ vs → mkey dest v.1 ≠ k) →
  fs_files (md_run src dest vs w) !! k = fs_files w !! k.
Proof.
  induction vs as [|v vs IH]; intros w k Hne; [done|].
  cbn [md_run foldl]. fold (md_run src dest vs (md_step src dest v w)).
  rewrite IH by (intros v' Hv'; apply Hne; by right).
  unfold md_step. cbn [fs_files]. rewrite lookup_insert_ne; [done|].
  apply Hne. left.
Qed.

Lemma md_run_keeps_content src dest vs : ∀ w k c,
  fs_files w !! k = Some (Content c) →
  ∃ c', fs_files (md_run src dest vs w) !! k = Some (Content c').
Proof.
  induction vs as [|v vs IH]; intros w k c Hk; [by exists c|].
  cbn [md_run foldl]. fold (md_run src dest vs (md_step src dest v w)).
  destruct (decide (mkey dest v.1 = k)) as [<-|Hne].
  - eapply IH. unfold md_step. cbn [fs_files]. apply lookup_insert_eq.
  - eapply IH. unfold md_step. cbn [fs_files]. by rewrite lookup_insert_ne.
Qed.

Lemma md_run_lookup src dest vs w k :
  (∃ v, v ∈ vs ∧ mkey dest v.1 = k) →
  fs_files (md_run src dest vs w) !! k =
  Some (Content (prior (fs_files w) k ++ cat (blocks_for dest k vs))).
Proof.
  intros Hex.
  assert (∃ c, fs_files (md_run src dest vs w) !! k = Some (Content c)) as [c Hc].
  { revert w. induction vs as [|v vs IH]; intros w.
    { destruct Hex as (v & Hv & _). by apply elem_of_nil in Hv. }
    cbn [md_run foldl]. fold (md_run src dest vs (md_step src dest v w)).
    destruct (decide (mkey dest v.1 = k)) as [Hk|Hne].
    - eapply md_run_keeps_content. unfold md_step. cbn [fs_files].
      rewrite Hk. apply lookup_insert_eq.
    - apply IH. destruct Hex as (v0 & Hv0 & Hk0).
      apply elem_of_cons in Hv0 as [->|Hv0]; [done|]. by exists v0. }
  rewrite Hc. do 2 f_equal. rewrite <- (md_run_prior src). unfold prior. by rewrite Hc.
Qed.

Lemma md_run_opens src dest vs : ∀ w,
  opens (md_run src dest vs w) =
  (opens w ++ map (fun v => (ModeA, mkey dest v.1)) vs)%list.
Proof.
  induction vs as [|v vs IH]; intros w; simpl; [by rewrite app_nil_r|].
  fold (md_run src dest vs (md_step src dest v w)).
  rewrite IH. simpl. by rewrite <- app_assoc.
Qed.


(** *** Destination names of the directories *)

Lemma sep_free_cons a s : sep_free (String a s) → a ≠ "/"%char ∧ sep_free s.
Proof.
  unfold sep_free. simpl. destruct (Ascii.eqb_spec a "/"%char) as [->|Hne]; [done|].
  intros [= H]. done.
Qed.

Lemma first_segment_join d s : sep_free d → first_segment (d ++ "/" ++ s) = d.
Proof.
  induction d as [|a d IH]; intros Hd; [done|].
  apply sep_free_cons in Hd as [Ha Hd]. rewrite append_cons. simpl.
  destruct (Ascii.eqb_spec a "/"%char) as [->|_]; [done|]. by rewrite IH.
Qed.

Lemma mkey_top dest d q : sep_free d → mkey dest (d :: q) = dest_key dest d.
Proof.
  intros Hd. unfold mkey, dest_key. do 2 f_equal.
  destruct q as [|d' q]; simpl; [done|]. by apply first_segment_join.
Qed.

Lemma wf_top_names t :
  wf_node t →
  NoDup (map fst (node_files t) ++ map fst (node_subdirs t))%list ∧
  Forall sep_free (map fst (node_files t) ++ map fst (node_subdirs t))%list.
Proof. destruct t as [files subdirs]. intros (? & ? & _)%wf_node_inv. done. Qed.

Lemma sub_walked_key excl t dest v :
  wf_node t → v ∈ sub_walked excl t →
  ∃ d, head v.1 = Some d ∧ d ∈ map fst (node_subdirs t) ∧ (d ∉ excl) ∧
       sep_free d ∧ mkey dest v.1 = dest_key dest d.
Proof.
  intros Hwf (d & q & c & Hv & Hd & Hex & _)%sub_walked_top.
  apply wf_top_names in Hwf as [_ Hsep]. apply Forall_app in Hsep as [_ Hsep].
  rewrite Forall_forall in Hsep. pose proof (Hsep _ Hd) as Hsd.
  exists d. rewrite Hv. split_and!; try done. by apply mkey_top.
Qed.

(** *** Blocks and emitted entries *)

Lemma emit_dir_elem r fs e :
  e ∈ omap emit (map (pair r) fs) →
  e.1.1 = r ∧ ∃ d, (e.1.2, d) ∈ fs ∧ eligible e.1.2 = true ∧ read_res d = Ok e.2.
Proof.
  rewrite list_elem_of_omap. intros (x & Hx & He).
  apply list_elem_of_fmap in Hx as ([f d] & -> & Hfd).
  unfold emit in He. cbn [fst snd] in He.
  destruct (eligible f) eqn:Hel; [|done].
  destruct (read_res d) as [c|] eqn:Hr; [|done].
  injection He as <-. split; [done|]. by exists d.
Qed.

Lemma filter_all {A} (P : A -> Prop) `{∀ x, Decision (P x)} (l : list A) :
  (∀ x, x ∈ l → P x) → filter P l = l.
Proof.
  induction l as [|x l IH]; intros Hall; [done|].
  rewrite filter_cons_True by (apply Hall; left).
  f_equal. apply IH. intros y Hy. apply Hall. by right.
Qed.

Lemma filter_none {A} (P : A -> Prop) `{∀ x, Decision (P x)} (l : list A) :
  (∀ x, x ∈ l → ¬ P x) → filter P l = [].
Proof.
  induction l as [|x l IH]; intros Hall; [done|].
  rewrite filter_cons_False by (apply Hall; left).
  apply IH. intros y Hy. apply Hall. by right.
Qed.

Lemma blocks_for_filter dest k (Q : path * string * string -> Prop)
    `{∀ e, Decision (Q e)} vs :
  (∀ v e, v ∈ vs → e.1.1 = v.1 → mkey dest v.1 = k ↔ Q e) →
  blocks_for dest k vs =
  map (fun e => module_block e.1.1 e.1.2 e.2) (filter Q (entries_of vs)).
Proof.
  unfold blocks_for, entries_of.
  induction vs as [|v vs IH]; intros HQ; [done|].
  cbn [flat_map]. rewrite omap_app, filter_app, map_app.
  rewrite IH by (intros v' e Hv'; apply HQ; by right). f_equal.
  destruct (decide (mkey dest v.1 = k)) as [Hk|Hk].
  - rewrite filter_all; [done|].
    intros e [He _]%emit_dir_elem. by apply (HQ v e); [left| |].
  - rewrite filter_none; [done|].
    intros e [He _]%emit_dir_elem HQe. apply Hk. by apply (HQ v e); [left| |].
Qed.

Lemma emitted_split excl t :
  emitted excl t =
  (omap emit (map (pair []) (node_files t)) ++ entries_of (sub_walked excl t))%list.
Proof.
  unfold emitted, listing, entries_of. rewrite walked_root. cbn [flat_map fst snd].
  by rewrite omap_app.
Qed.

Lemma blocks_for_top excl t dest d :
  wf_node t → d ∈ map fst (node_subdirs t) →
  blocks_for dest (dest_key dest d) (sub_walked excl t) =
  map (fun e => module_block e.1.1 e.1.2 e.2)
      (filter (λ e, head e.1.1 = Some d) (emitted excl t)).
Proof.
  intros Hwf Hd.
  rewrite emitted_split, filter_app, filter_none, app_nil_l.
  - apply blocks_for_filter. intros v e Hv ->.
    destruct (sub_walked_key excl t dest v Hwf Hv) as (d' & Hh & Hd' & _ & Hs' & ->).
    rewrite Hh. split.
    + intros Hk. f_equal. apply (dest_key_inj dest); try done.
      apply wf_top_names in Hwf as [_ Hsep]. apply Forall_app in Hsep as [_ Hsep].
      rewrite Forall_forall in Hsep. by apply Hsep.
    + by intros [= ->].
  - intros e [-> _]%emit_dir_elem. done.
Qed.

Lemma pf_run_unique src dest l w e :
  ¬ blocked (fs_files w) (dest_key dest e.1.2) →
  e ∈ omap emit l →
  (∀ y, y ∈ omap emit l → dest_key dest y.1.2 = dest_key dest e.1.2 → y.2 = e.2) →
  fs_files (pf_run src dest l w) !! dest_key dest e.1.2 = Some (Content e.2).
Proof.
  intros Hnb He Hsame. rewrite pf_run_lookup by done. unfold last_write.
  destruct (last_filter_elem (λ y, dest_key dest y.1.2 = dest_key dest e.1.2)
              (omap emit l) e He eq_refl) as (y & -> & Hy & Hk).
  do 2 f_equal. by apply Hsame.
Qed.

Lemma entries_of_elem vs e :
  e ∈ entries_of vs → ∃ v, v ∈ vs ∧ e ∈ omap emit (map (pair v.1) v.2).
Proof.
  unfold entries_of. induction vs as [|v vs IH]; cbn [flat_map].
  - by intros ?%elem_of_nil.
  - rewrite omap_app. intros [H|H]%elem_of_app.
    + exists v. split; [left|done].
    + destruct (IH H) as (v' & ? & ?). exists v'. split; [by right|done].
Qed.

Lemma root_entry_elem excl t e :
  e ∈ emitted excl t → e.1.1 = [] → e ∈ omap emit (map (pair []) (node_files t)).
Proof.
  rewrite emitted_split. intros [H|H]%elem_of_app Hr; [done|].
  apply entries_of_elem in H as (v & Hv & [Hp _]%emit_dir_elem).
  apply sub_walked_below in Hv. congruence.
Qed.

Lemma root_file_kept src dest excl t w e :
  wf_node t → (∀ k, ¬ blocked (fs_files w) k) →
  e ∈ emitted excl t → e.1.1 = [] →
  fs_files (modules_end src dest excl t w) !! dest_key dest e.1.2 =
  Some (Content e.2).
Proof.
  intros Hwf Hnb He Hr. pose proof (root_entry_elem _ _ _ He Hr) as Hroot.
  pose proof (wf_top_names _ Hwf) as [Hnd Hsep]. rewrite Forall_forall in Hsep.
  destruct (emit_dir_elem _ _ _ Hroot) as (_ & d0 & Hfd & _ & Hres).
  assert (e.1.2 ∈ map fst (node_files t)) as Hname.
  { apply list_elem_of_fmap. by exists (e.1.2, d0). }
  unfold modules_end. rewrite md_run_untouched.
  - apply pf_run_unique; [apply Hnb|done|].
    intros y Hy Hk. destruct (emit_dir_elem _ _ _ Hy) as (_ & d1 & Hfd1 & _ & Hres1).
    assert (y.1.2 = e.1.2) as Hf.
    { apply (dest_key_inj dest); [| |done]; apply Hsep, elem_of_app; left;
        [|done]. apply list_elem_of_fmap. by exists (y.1.2, d1). }
    rewrite Hf in Hfd1. apply NoDup_app in Hnd as (Hnd & _ & _).
    assert (d1 = d0) as -> by exact (NoDup_fst_functional _ _ _ _ Hnd Hfd1 Hfd).
    congruence.
  - intros v Hv Hk.
    destruct (sub_walked_key excl t dest v Hwf Hv) as (d & _ & Hd & _ & Hsd & Hkey).
    rewrite Hkey in Hk. apply dest_key_inj in Hk; [|done|].
    + apply NoDup_app in Hnd as (_ & Hdisj & _). refine (Hdisj e.1.2 Hname _).
      by rewrite <- Hk.
    + apply Hsep, elem_of_app. by left.
Qed.

Lemma below_entry_top excl t e :
  e ∈ emitted excl t → e.1.1 ≠ [] →
  ∃ d, head e.1.1 = Some d ∧ d ∈ map fst (node_subdirs t) ∧ d ∉ excl.
Proof.
  rewrite emitted_split. intros [H|H]%elem_of_app Hr.
  - apply emit_dir_elem in H as [? _]. done.
  - apply entries_of_elem in H as (v & Hv & [Hp _]%emit_dir_elem).
    apply sub_walked_top in Hv as (d & q & c & Hv & Hd & Hex & _).
    exists d. rewrite Hp, Hv. done.
Qed.

Lemma modules_end_top src dest excl t w d :
  wf_node t → (∀ k, ¬ blocked (fs_files w) k) →
  d ∈ map fst (node_subdirs t) → d ∉ excl →
  fs_files (modules_end src dest excl t w) !! dest_key dest d =
  Some (Content
    (prior (fs_files w) (dest_key dest d) ++
     cat (map (fun e => module_block e.1.1 e.1.2 e.2)
              (filter (λ e, head e.1.1 = Some d) (emitted excl t))))).
Proof.
  intros Hwf Hnb Hd Hex.
  pose proof (wf_top_names _ Hwf) as [Hnd Hsep]. rewrite Forall_forall in Hsep.
  assert (sep_free d) as Hsd by (apply Hsep, elem_of_app; by right).
  unfold modules_end. rewrite md_run_lookup.
  - rewrite (blocks_for_top excl t dest d Hwf Hd). do 3 f_equal.
    unfold prior. rewrite pf_run_lookup by apply Hnb. unfold last_write.
    rewrite filter_none; [done|].
    intros e (_ & d0 & Hfd & _)%emit_dir_elem Hk.
    apply dest_key_inj in Hk; [|apply Hsep, elem_of_app; left|done].
    + apply NoDup_app in Hnd as (_ & Hdisj & _). refine (Hdisj d _ Hd).
      apply list_elem_of_fmap. exists (e.1.2, d0). split; [by symmetry|done].
    + apply list_elem_of_fmap. by exists (e.1.2, d0).
  - destruct (top_walked excl t d Hd Hex) as (v & Hv & Hp).
    exists v. split; [done|]. rewrite Hp. by apply mkey_top.
Qed.

Lemma no_blocked_fresh : ∀ k, ¬ blocked (fs_files fresh) k.
Proof. intros k [err H]. simpl in H. by rewrite lookup_empty in H. Qed.

Lemma modules_end_dir src dest excl t w :
  dir_exists (modules_end src dest excl t w) = true.
Proof.
  unfold modules_end, md_run.
  generalize (pf_run_dir src dest (map (pair []) (node_files t)) (ready w)).
  generalize (pf_run src dest (map (pair []) (node_files t)) (ready w)).
  induction (sub_walked excl t) as [|v vs IH]; intros w0 Hw0; simpl; [done|].
  by apply IH.
Qed.

Lemma modules_end_blocked src dest excl t w k :
  (∀ k, ¬ blocked (fs_files w) k) →
  ¬ blocked (fs_files (modules_end src dest excl t w)) k.
Proof.
  intros Hnb. unfold modules_end. rewrite md_run_blocked.
  - rewrite pf_run_blocked_iff. apply Hnb.
  - intros v _. rewrite pf_run_blocked_iff. apply Hnb.
Qed.

Example with_docs_empty_file :
  fs_files (save_files_as_text_by_modules "root" ["target"] None with_docs "out" fresh).2
    !! "out/docs.txt" = Some (Content "").
Proof. by_compute. Qed.






Example rerun_scenario :
  fs_files
    (save_files_as_text_by_modules "root" ["target"] None scenario "out"
       (save_files_as_text_by_modules "root" ["target"] None scenario "out" fresh).2).2
    !! "out/sub.txt" =
  Some (Content ("sub/b.py" ++ LF ++ LF ++ "y=2" ++ LF ++ "---" ++ LF ++
                 "sub/b.py" ++ LF ++ LF ++ "y=2" ++ LF ++ "---" ++ LF)).
Proof. by_compute. Qed.

(** ** Diagnostics *)








(** ** Every file is listed once *)

Lemma NoDup_flat_map {A B} (g : A -> list B) (l : list A) :
  NoDup l →
  (∀ x, x ∈ l → NoDup (g x)) →
  (∀ x y z, x ∈ l → y ∈ l → x ≠ y → z ∈ g x → z ∈ g y → False) →
  NoDup (flat_map g l).
Proof.
  induction l as [|x l IH]; intros Hnd Hg Hdisj; simpl; [constructor|].
  apply NoDup_cons in Hnd as [Hx Hnd]. apply NoDup_app. split_and!.
  - apply Hg. left.
  - intros z Hz Hz'. apply list_elem_of_In, in_flat_map in Hz' as (y & Hy & Hz').
    apply list_elem_of_In in Hy, Hz'.
    apply (Hdisj x y z); [left|by right| |done|done]. by intros ->.
  - apply IH; [done| |].
    + intros y Hy. apply Hg. by right.
    + intros y1 y2 z H1 H2. apply Hdisj; by right.
Qed.

Lemma map_flat_map {A B C} (f : B -> C) (g : A -> list B) (l : list A) :
  map f (flat_map g l) = flat_map (fun x => map f (g x)) l.
Proof. induction l as [|x l IH]; simpl; [done|]. by rewrite map_app, IH. Qed.

Lemma wf_lookup_dir d cs c files :
  wf_node (Dir files cs) → lookup_dir d cs = Some c → wf_node c.
Proof.
  intros (_ & _ & Hall)%wf_node_inv Hc. rewrite Forall_forall in Hall.
  exact (Hall _ (lookup_dir_elem _ _ _ Hc)).
Qed.

Lemma walked_paths_NoDup excl t :
  ∀ root, wf_node t → NoDup (map fst (walked excl root t)).
Proof.
  induction t as [files subdirs IH] using node_ind'. intros root Hwf.
  cbn [walked map fst]. apply NoDup_cons. split.
  - rewrite map_flat_map. intros Hin.
    apply list_elem_of_In, in_flat_map in Hin as (d & _ & Hin).
    apply in_map_iff in Hin as (v & Hv & Hin). rewrite find_dir_lookup in Hin.
    destruct (lookup_dir d subdirs) as [c|]; [|done].
    apply list_elem_of_In, walked_outside in Hin as (q & Hq & _).
    rewrite Hq in Hv. apply (f_equal length) in Hv.
    rewrite !length_app in Hv. simpl in Hv. lia.
  - rewrite map_flat_map. apply NoDup_flat_map.
    + apply NoDup_filter. apply wf_node_inv in Hwf as (Hnd & _ & _).
      by apply NoDup_app in Hnd as (_ & _ & ?).
    + intros d Hd. rewrite find_dir_lookup.
      destruct (lookup_dir d subdirs) as [c|] eqn:Hc; [|constructor].
      rewrite Forall_forall in IH.
      apply (IH _ (lookup_dir_elem _ _ _ Hc)). by eapply wf_lookup_dir.
    + intros d1 d2 z _ _ Hne H1 H2. rewrite find_dir_lookup in H1, H2.
      destruct (lookup_dir d1 subdirs) as [c1|]; [|by apply elem_of_nil in H1].
      destruct (lookup_dir d2 subdirs) as [c2|]; [|by apply elem_of_nil in H2].
      apply list_elem_of_fmap in H1 as (v1 & -> & H1).
      apply list_elem_of_fmap in H2 as (v2 & Hz & H2).
      apply walked_outside in H1 as (q1 & Hq1 & _).
      apply walked_outside in H2 as (q2 & Hq2 & _).
      rewrite Hq1, Hq2, <- !app_assoc in Hz.
      apply app_inv_head in Hz. simpl in Hz. congruence.
Qed.

Lemma walked_files_NoDup excl t v :
  wf_node t → v ∈ walked excl [] t → NoDup (map fst v.2).
Proof.
  intros Hwf (q & c & _ & _ & Hsub & <-)%walked_subtree.
  pose proof (wf_subtree _ _ _ Hwf Hsub) as Hc. destruct c as [files subdirs].
  apply wf_node_inv in Hc as (Hnd & _ & _). by apply NoDup_app in Hnd as (? & _ & _).
Qed.

Lemma NoDup_fst_NoDup {A B} (l : list (A * B)) : NoDup (map fst l) → NoDup l.
Proof.
  induction l as [|[a b] l IH]; [constructor|]. simpl.
  intros [Ha Hnd]%NoDup_cons. apply NoDup_cons. split; [|by apply IH].
  intros Hin. apply Ha. apply list_elem_of_fmap. by exists (a, b).
Qed.

Lemma listing_NoDup excl t :
  wf_node t → NoDup (map file_key (listing excl t)).
Proof.
  intros Hwf. unfold listing. rewrite map_flat_map.
  pose proof (walked_paths_NoDup excl t [] Hwf) as Hpaths.
  apply NoDup_flat_map.
  - by apply NoDup_fst_NoDup.
  - intros v Hv. rewrite map_map. unfold file_key. cbn [fst snd].
    pose proof (walked_files_NoDup excl t v Hwf Hv) as Hfiles.
    clear -Hfiles. induction v.2 as [|[f d] l IH]; [constructor|].
    simpl in *. apply NoDup_cons in Hfiles as [Hf Hnd]. apply NoDup_cons.
    split; [|by apply IH].
    intros Hin. apply Hf. apply list_elem_of_fmap in Hin as ([f' d'] & [= ->] & Hin).
    apply list_elem_of_fmap. by exists (f', d').
  - intros [r1 fs1] [r2 fs2] z H1 H2 Hne Hz1 Hz2.
    apply list_elem_of_fmap in Hz1 as (x1 & -> & Hx1).
    apply list_elem_of_fmap in Hz2 as (x2 & Hk & Hx2).
    apply list_elem_of_fmap in Hx1 as (fd1 & -> & _).
    apply list_elem_of_fmap in Hx2 as (fd2 & -> & _).
    unfold file_key in Hk. cbn [fst snd] in Hk. injection Hk as Hr _.
    subst r2. apply Hne. f_equal.
    exact (NoDup_fst_functional _ _ _ _ Hpaths H1 H2).
Qed.

Lemma emit_key x e : emit x = Some e → e.1 = file_key x.
Proof.
  unfold emit, file_key. destruct (eligible x.2.1); [|done].
  destruct (read_res x.2.2); [|done]. by intros [= <-].
Qed.

Lemma omap_keys_NoDup {A B K} (key : A -> K) (key' : B -> K)
    (f : A -> option B) (l : list A) :
  (∀ x y, f x = Some y → key' y = key x) →
  NoDup (map key l) → NoDup (map key' (omap f l)).
Proof.
  intros Hkey. induction l as [|x l IH]; [constructor|].
  intros Hnd. simpl in Hnd. apply NoDup_cons in Hnd as [Hx Hnd].
  rewrite omap_cons_eq.
  destruct (f x) as [y|] eqn:Hfx; [|by apply IH].
  simpl. apply NoDup_cons. split; [|by apply IH].
  intros Hin. apply Hx. apply list_elem_of_fmap in Hin as (y' & Hy' & Hin).
  apply list_elem_of_omap in Hin as (x' & Hx' & Hfx').
  apply list_elem_of_fmap. exists x'. split; [|done].
  by rewrite <- (Hkey _ _ Hfx), <- (Hkey _ _ Hfx').
Qed.

Lemma emitted_NoDup excl t : wf_node t → NoDup (map fst (emitted excl t)).
Proof.
  intros Hwf. unfold emitted.
  apply (omap_keys_NoDup file_key fst); [apply emit_key|]. by apply listing_NoDup.
Qed.

(** An emitted entry is the only one of its file. *)
Lemma emitted_once excl t e :
  wf_node t → e ∈ emitted excl t →
  ∃ l1 l2, emitted excl t = (l1 ++ e :: l2)%list ∧
           ∀ e', e' ∈ (l1 ++ l2)%list → e'.1 ≠ e.1.
Proof.
  intros Hwf He. apply list_elem_of_split in He as (l1 & l2 & Heq).
  exists l1, l2. split; [done|].
  pose proof (emitted_NoDup excl t Hwf) as Hnd. rewrite Heq in Hnd.
  rewrite map_app in Hnd. simpl in Hnd.
  apply NoDup_app in Hnd as (_ & Hdisj & [Hnot _]%NoDup_cons).
  intros e' [H1|H2]%elem_of_app Heq'.
  - refine (Hdisj e'.1 _ _); [apply list_elem_of_fmap; by exists e'|].
    rewrite Heq'. left.
  - apply Hnot. rewrite <- Heq'. apply list_elem_of_fmap. by exists e'.
Qed.

Lemma file_at_top t d q f x :
  file_at t (d :: q) f x → d ∈ map fst (node_subdirs t).
Proof.
  intros (c & Hsub & _). cbn [subtree] in Hsub.
  destruct (lookup_dir d (node_subdirs t)) as [c1|] eqn:Hc; [|done].
  by eapply lookup_dir_names.
Qed.

(** C1 as stated fails in PerFile mode: [a/x.py] is eligible, lies outside
    every excluded directory and decodes to ["1"], yet after the run no
    destination file holds ["1"]: [x.py.txt] was overwritten with the text of
    [b/x.py]. *)
Lemma C1_counterexample :
  file_at collide ["a"] "x.py" (Bytes "1") ∧
  outside ["target"] ["a"] ∧
  eligible "x.py" = true ∧ utf8_valid "1" = true ∧
  ∃ w',
    save_files_as_text "root" ["target"] None collide "out" false fresh = (Ok tt, w') ∧
    ∀ k, fs_files w' !! k ≠ Some (Content "1").
Proof.
  split_and!; try reflexivity.
  - eexists. split; [reflexivity|]. simpl. left.
  - repeat constructor. apply (bool_decide_unpack _). by_compute.
  - eexists. split; [by_compute|].
    assert (∀ m : gmap string dentry,
              m = <["out/x.py.txt" := Content "2"]>
                    (<["out/c.py.txt" := Content ("p" ++ LF ++ "q")]> ∅) →
              ∀ k, m !! k ≠ Some (Content "1")) as Hm.
    { intros m -> k.
      intros [[_ [=]]|[_ [[_ [=]]|[_ H]]%lookup_insert_Some]]%lookup_insert_Some.
      by rewrite lookup_empty in H. }
    apply Hm. by_compute.
Qed.

(** * Further properties of the scripts *)

(** ** The extension filter *)

Lemma endswith_spec s suf : endswith s suf = true ↔ ∃ p, s = p ++ suf.
Proof.
  induction s as [|a s IH]; cbn [endswith].
  - rewrite orb_false_r. split.
    + intros H%String.eqb_eq. exists "". by rewrite <- H.
    + intros [[|b p] Hp]; [|by rewrite append_cons in Hp].
      rewrite append_nil_l in Hp. subst suf. apply String.eqb_refl.
  - rewrite orb_true_iff, IH. split.
    + intros [H%String.eqb_eq|[p ->]].
      * exists "". by rewrite <- H.
      * by exists (String a p).
    + intros [[|b p] Hp].
      * left. rewrite append_nil_l in Hp. subst suf. apply String.eqb_refl.
      * right. rewrite append_cons in Hp. injection Hp as _ ->. by exists p.
Qed.

(** X1: the extension filter is an exact, case-sensitive suffix test on the
    name: a name passes it precisely when it is some text, possibly empty,
    followed by one of the seven suffixes. *)
Theorem X1_eligible_iff_suffix (file : string) :
  eligible file = true ↔
  ∃ p suf,
    suf ∈ [".ts"; ".java"; ".properties"; ".xml"; ".py"; ".md"; ".sql"] ∧
    file = p ++ suf.
Proof.
  unfold eligible. rewrite existsb_exists. split.
  - intros (suf & Hin & (p & ->)%endswith_spec).
    exists p, suf. split; [by apply list_elem_of_In|done].
  - intros (p & suf & Hin & ->). exists suf.
    split; [by apply list_elem_of_In|]. apply endswith_spec. by exists p.
Qed.

Lemma last_char_app (s t : string) : t ≠ "" → last_char (s ++ t) = last_char t.
Proof.
  intros Ht. induction s as [|a s IH]; [done|].
  rewrite append_cons. cbn [last_char]. rewrite IH.
  destruct (s ++ t) eqn:Hst; [|done].
  destruct s; [|by rewrite append_cons in Hst].
  rewrite append_nil_l in Hst. by subst t.
Qed.

Lemma txt_not_eligible (x : string) : eligible (x ++ ".txt") = false.
Proof.
  destruct (eligible (x ++ ".txt")) eqn:Hel; [|done]. exfalso.
  unfold eligible in Hel. apply existsb_exists in Hel as (suf & Hin & Hsuf).
  apply list_elem_of_In in Hin. apply endswith_spec in Hsuf as (p & Heq).
  apply (f_equal last_char) in Heq. rewrite last_char_app in Heq by done.
  repeat (apply elem_of_cons in Hin as [->|Hin];
          [rewrite last_char_app in Heq by done; simpl in Heq; discriminate|]).
  by apply elem_of_nil in Hin.
Qed.

(** X2: no name or path that ends in [.txt] passes the extension filter.
    Every destination path the scripts build, [os.path.join(dest, x + '.txt')],
    is therefore passed over by the filter of a later walk that meets it. *)
Theorem X2_destination_names_not_eligible (dest x : string) :
  eligible (x ++ ".txt") = false ∧
  eligible (os_path_join dest (x ++ ".txt")) = false ∧
  eligible (mkey dest [x]) = false.
Proof.
  assert (eligible (os_path_join dest (x ++ ".txt")) = false) as Hjoin.
  { unfold os_path_join. destruct (is_abs _); [apply txt_not_eligible|].
    destruct (_ || _).
    - rewrite <- append_assoc. apply txt_not_eligible.
    - rewrite <- !append_assoc. apply txt_not_eligible. }
  split_and!; [apply txt_not_eligible|done|].
  unfold mkey, os_path_join. destruct (is_abs _); [apply txt_not_eligible|].
  destruct (_ || _).
  - rewrite <- append_assoc. apply txt_not_eligible.
  - rewrite <- !append_assoc. apply txt_not_eligible.
Qed.

(** ** Files that do not pass the filter *)

Lemma names_map_all f cs : map fst (map_kept [] f cs) = map fst cs.
Proof.
  induction cs as [|[n c] cs IH]; simpl; [done|].
  destruct (decide (n ∈ [])) as [H|_]; [by apply elem_of_nil in H|].
  simpl. by rewrite IH.
Qed.

Lemma for_each_map {W A B} (g : A -> B) (l : list A) (f : B -> M W unit) w :
  for_each (map g l) f w = for_each l (fun x => f (g x)) w.
Proof.
  revert w. induction l as [|x l IH]; intros w; simpl; [done|].
  unfold bind. destruct (f (g x) w) as [[[]|e] w1]; [|done]. apply IH.
Qed.

Lemma for_each_filter_noop {W A} (P : A -> Prop) `{∀ x, Decision (P x)}
    (l : list A) (f : A -> M W unit) :
  (∀ x w, ¬ P x → f x w = (Ok tt, w)) →
  ∀ w, for_each (filter P l) f w = for_each l f w.
Proof.
  intros Hnoop. induction l as [|x l IH]; intros w; [done|].
  destruct (decide (P x)) as [HP|HP].
  - rewrite filter_cons_True by done. cbn [for_each]. unfold bind.
    destruct (f x w) as [[[]|e] w1]; [|done]. apply IH.
  - rewrite filter_cons_False by done. cbn [for_each]. unfold bind.
    rewrite Hnoop by done. apply IH.
Qed.

Lemma walked_only_eligible excl t : ∀ root,
  walked excl root (only_eligible t) =
  map (fun v => (v.1, filter (λ fd, eligible fd.1 = true) v.2))
      (walked excl root t).
Proof.
  induction t as [files subdirs IH] using node_ind'. intros root.
  cbn [only_eligible walked map fst snd]. f_equal.
  rewrite names_map_all, map_flat_map.
  apply flat_map_ext_elem. intros d _.
  rewrite !find_dir_lookup, lookup_dir_map_kept by apply not_elem_of_nil.
  destruct (lookup_dir d subdirs) as [c|] eqn:Hc; [|done]. simpl.
  apply lookup_dir_elem in Hc. rewrite Forall_forall in IH. apply (IH _ Hc).
Qed.

Lemma subtree_only_eligible p : ∀ t c,
  subtree (only_eligible t) p = Some c →
  ∃ c0, subtree t p = Some c0 ∧ c = only_eligible c0.
Proof.
  induction p as [|d p IH]; intros [files subdirs] c.
  - intros [= <-]. by eexists.
  - cbn [subtree only_eligible node_subdirs].
    rewrite lookup_dir_map_kept by apply not_elem_of_nil.
    destruct (lookup_dir d subdirs) as [c1|]; [|done]. simpl. apply IH.
Qed.

Lemma single_entry_skip src dest r f w :
  eligible f.1 ≠ true → single_entry src dest r f w = (Ok tt, w).
Proof. unfold single_entry. by destruct (eligible f.1). Qed.

Lemma per_file_entry_skip src dest r f w :
  eligible f.1 ≠ true → per_file_entry src dest r f w = (Ok tt, w).
Proof. unfold per_file_entry. by destruct (eligible f.1). Qed.

Lemma module_entry_skip src p r f w :
  eligible f.1 ≠ true → module_entry src p r f w = (Ok tt, w).
Proof. unfold module_entry. by destruct (eligible f.1). Qed.

Lemma module_act_only_eligible src dest r fs w :
  module_act src dest r (filter (λ fd, eligible fd.1 = true) fs) w =
  module_act src dest r fs w.
Proof.
  unfold module_act. case_decide.
  - apply for_each_filter_noop. intros. by apply per_file_entry_skip.
  - cbv zeta. unfold bind. destruct (open_a _ w) as [[[]|e] w1]; [|done].
    apply for_each_filter_noop. intros. by apply module_entry_skip.
Qed.

(** X3: files whose name does not pass the extension filter are never
    opened.  In every mode the whole result of a run (outcome, destination
    files, console, opens) is the result of the run on the tree from which
    those files are removed, whatever they hold and whether or not they can be
    read. *)
Theorem X3_ineligible_files_ignored src excl mk t :
  (∀ dest single w,
     save_files_as_text src excl mk t dest single w =
     save_files_as_text src excl mk (only_eligible t) dest single w) ∧
  (∀ dest w,
     save_files_as_text_by_modules src excl mk t dest w =
     save_files_as_text_by_modules src excl mk (only_eligible t) dest w) ∧
  (∀ p f d, file_at (only_eligible t) p f d →
     eligible f = true ∧ file_at t p f d).
Proof.
  split_and!.
  - intros dest single w. unfold save_files_as_text, bind. destruct single.
    + destruct (open_w dest w) as [[[]|e] w1]; [|done].
      rewrite single_file_body_pruning, !os_walk_walked, walked_only_eligible.
      rewrite for_each_map. symmetry. apply for_each_ext. intros v w2 _.
      cbn [fst snd]. apply for_each_filter_noop. intros. by apply single_entry_skip.
    + destruct (ensure_dir mk w) as [[[]|e] w1]; [|done].
      rewrite per_file_body_pruning, !os_walk_walked, walked_only_eligible.
      rewrite for_each_map. symmetry. apply for_each_ext. intros v w2 _.
      cbn [fst snd]. apply for_each_filter_noop. intros. by apply per_file_entry_skip.
  - intros dest w. unfold save_files_as_text_by_modules, bind.
    destruct (ensure_dir mk w) as [[[]|e] w1]; [|done].
    rewrite by_modules_body_pruning, !os_walk_walked, walked_only_eligible.
    rewrite for_each_map. symmetry. apply for_each_ext. intros v w2 _.
    cbn [fst snd]. apply module_act_only_eligible.
  - intros p f d (c & Hsub & Hf).
    apply subtree_only_eligible in Hsub as (c0 & Hsub & ->).
    destruct c0 as [files subdirs]. cbn [only_eligible node_files] in Hf.
    apply list_elem_of_filter in Hf as [Hel Hf].
    split; [done|]. by exists (Dir files subdirs).
Qed.

(** ** Failed reads and unopenable destinations in PerFile and PerModule *)

(** X4: in PerFile and PerModule mode too, the read comes before the
    destination is opened or written.  An iteration on an eligible file whose
    read raises leaves every destination file as it was, in particular a
    [<base name>.txt] left by an earlier run is neither truncated nor
    created, opens nothing and prints one diagnostic. *)
Theorem X4_failed_read_leaves_destination src dest p root f e w :
  eligible f.1 = true →
  read_text f.2 w = (Raise e, w) →
  (∃ w',
     per_file_entry src dest root f w = (Ok tt, w') ∧
     fs_files w' = fs_files w ∧ opens w' = opens w ∧
     console w' = (console w ++ [report_line (src_path src root f.1) e])%list) ∧
  (∃ w',
     module_entry src p root f w = (Ok tt, w') ∧
     fs_files w' = fs_files w ∧ opens w' = opens w ∧
     console w' = (console w ++ [report_line (src_path src root f.1) e])%list).
Proof.
  intros Hel Hread. rewrite read_text_res in Hread.
  assert (read_res f.2 = Raise e) as Hres by congruence.
  split; eexists.
  - split; [apply per_file_entry_step|]. unfold pf_step. by rewrite Hel, Hres.
  - split; [apply module_entry_step|]. unfold mod_step. by rewrite Hel, Hres.
Qed.

Lemma X4_failed_read_leaves_destination_witness :
  (∃ w',
     per_file_entry "root" "out" [] ("bad.py", Bytes not_text) fresh = (Ok tt, w') ∧
     fs_files w' = fs_files fresh ∧ opens w' = opens fresh ∧
     console w' =
       (console fresh ++
        [report_line (src_path "root" [] "bad.py") UnicodeDecodeError])%list) ∧
  (∃ w',
     module_entry "root" "out/sub.txt" [] ("bad.py", Bytes not_text) fresh = (Ok tt, w') ∧
     fs_files w' = fs_files fresh ∧ opens w' = opens fresh ∧
     console w' =
       (console fresh ++
        [report_line (src_path "root" [] "bad.py") UnicodeDecodeError])%list).
Proof.
  apply (X4_failed_read_leaves_destination "root" "out" "out/sub.txt" []
           ("bad.py", Bytes not_text) UnicodeDecodeError fresh); reflexivity.
Defined.


Lemma pf_run_untouched src dest l w k :
  (∀ e, e ∈ omap emit l → dest_key dest e.1.2 ≠ k) →
  fs_files (pf_run src dest l w) !! k = fs_files w !! k.
Proof.
  intros Hk. destruct (blocked_dec (fs_files w) k) as [[err Hb]|Hnb].
  - rewrite Hb. by apply pf_run_blocked.
  - rewrite pf_run_lookup by done. unfold last_write.
    rewrite filter_none; [done|]. intros e He. by apply Hk.
Qed.






(** ** What a run prints and opens *)

Lemma pf_step_no_blocked src dest r f w :
  (∀ k, ¬ blocked (fs_files w) k) →
  ∀ k, ¬ blocked (fs_files (pf_step src dest r f w)) k.
Proof.
  intros Hnb k.
  change (pf_step src dest r f w) with (pf_run src dest [(r, f)] w).
  rewrite pf_run_blocked_iff. apply Hnb.
Qed.

Lemma pf_run_exact src dest l : ∀ w,
  (∀ k, ¬ blocked (fs_files w) k) →
  console (pf_run src dest l w) = (console w ++ omap (failure src) l)%list ∧
  opens (pf_run src dest l w) =
    (opens w ++ map (fun e => (ModeW, dest_key dest e.1.2)) (omap emit l))%list.
Proof.
  induction l as [|[r f] l IH]; intros w Hnb.
  - simpl. by rewrite !app_nil_r.
  - cbn [pf_run foldl fst snd]. fold (pf_run src dest l (pf_step src dest r f w)).
    destruct (IH _ (pf_step_no_blocked src dest r f w Hnb)) as [-> ->].
    rewrite !omap_cons_eq. unfold pf_step, failure, emit. cbn [fst snd].
    destruct (eligible f.1); [|done].
    destruct (read_res f.2) as [c|e].
    + fold (dest_key dest f.1).
      destruct (fs_files w !! dest_key dest f.1) as [[c0|err]|] eqn:Hk; simpl.
      * by rewrite <- app_assoc.
      * destruct (Hnb (dest_key dest f.1)). by exists err.
      * by rewrite <- app_assoc.
    + simpl. by rewrite <- app_assoc.
Qed.

Example failures_faulty :
  failures "root" ["target"] faulty =
  ["Skipping binary or incompatible file: root/bad.py";
   "Error processing file root/gone.md: No such file"].
Proof. by_compute. Qed.

(** X8: PerFile mode opens one destination file per eligible file read.  On
    a destination where every path can be opened, the opens of a run are, in
    traversal order, one truncating open of [<base name>.txt] for each
    emitted entry; a file whose read failed opens nothing. *)
Theorem X8_per_file_one_open_per_file_read src excl mk t dest w :
  dir_exists w = true ∨ mk = None →
  (∀ k, ¬ blocked (fs_files w) k) →
  ∃ w',
    save_files_as_text src excl mk t dest false w = (Ok tt, w') ∧
    opens w' =
      (opens w ++
       map (fun e => (ModeW, os_path_join dest (e.1.2 ++ ".txt"))) (emitted excl t))%list.
Proof.
  intros Hok Hnb. eexists. split; [by apply per_file_mode_run|].
  by destruct (pf_run_exact src dest (listing excl t)
                 (World true (fs_files w) (console w) (opens w)) Hnb) as [_ ->].
Qed.

Lemma X8_per_file_one_open_per_file_read_witness :
  ∃ w',
    save_files_as_text "root" ["target"] None scenario "out" false fresh = (Ok tt, w') ∧
    opens w' =
      (opens fresh ++
       map (fun e => (ModeW, os_path_join "out" (e.1.2 ++ ".txt")))
           (emitted ["target"] scenario))%list.
Proof.
  apply (X8_per_file_one_open_per_file_read "root" ["target"] None scenario "out" fresh).
  - by right.
  - exact no_blocked_fresh.
Defined.

(** ** PerModule mode against PerFile mode *)

Lemma sub_walked_all_excluded excl t :
  (∀ d, d ∈ map fst (node_subdirs t) → d ∈ excl) → sub_walked excl t = [].
Proof.
  intros Hall. destruct t as [files subdirs]. unfold sub_walked.
  cbn [walked tail node_subdirs] in *.
  rewrite filter_none; [done|]. intros d Hd Hex. by apply Hex, Hall.
Qed.

(** X9: on a tree whose top-level directories are all excluded, and so on a
    tree without directories, a PerModule run is a PerFile run: same outcome,
    same destination files, same console, same opens. *)
Theorem X9_per_module_on_flat_tree_is_per_file src excl mk t dest w :
  (∀ d, d ∈ map fst (node_subdirs t) → d ∈ excl) →
  save_files_as_text_by_modules src excl mk t dest w =
  save_files_as_text src excl mk t dest false w.
Proof.
  intros Hall. unfold save_files_as_text_by_modules, save_files_as_text, bind.
  destruct (ensure_dir mk w) as [[[]|e] w1]; [|done].
  rewrite by_modules_body_pruning, per_file_body_pruning, !os_walk_walked.
  rewrite walked_root, (sub_walked_all_excluded _ _ Hall).
  cbn [for_each fst snd]. unfold bind, module_act. by case_decide.
Qed.

Lemma X9_per_module_on_flat_tree_is_per_file_witness :
  save_files_as_text_by_modules "root" ["target"; "sub"] None scenario "out" fresh =
  save_files_as_text "root" ["target"; "sub"] None scenario "out" false fresh.
Proof.
  apply (X9_per_module_on_flat_tree_is_per_file "root" ["target"; "sub"] None
           scenario "out" fresh).
  intros d Hd. simpl in Hd.
  apply elem_of_cons in Hd as [->|Hd]; [set_solver|].
  apply elem_of_cons in Hd as [->|Hd]; [set_solver|].
  by apply elem_of_nil in Hd.
Defined.

Lemma root_file_kept_after src dest excl t w e vs :
  wf_node t →
  ¬ blocked (fs_files w) (dest_key dest e.1.2) →
  (∀ v, v ∈ vs → v ∈ sub_walked excl t) →
  e ∈ emitted excl t → e.1.1 = [] →
  fs_files (md_run src dest vs
              (pf_run src dest (map (pair []) (node_files t)) (ready w)))
    !! dest_key dest e.1.2 = Some (Content e.2).
Proof.
  intros Hwf Hnb Hvs He Hr. pose proof (root_entry_elem _ _ _ He Hr) as Hroot.
  pose proof (wf_top_names _ Hwf) as [Hnd Hsep]. rewrite Forall_forall in Hsep.
  destruct (emit_dir_elem _ _ _ Hroot) as (_ & d0 & Hfd & _ & Hres).
  assert (e.1.2 ∈ map fst (node_files t)) as Hname.
  { apply list_elem_of_fmap. by exists (e.1.2, d0). }
  rewrite md_run_untouched.
  - apply pf_run_unique; [done|done|].
    intros y Hy Hk. destruct (emit_dir_elem _ _ _ Hy) as (_ & d1 & Hfd1 & _ & Hres1).
    assert (y.1.2 = e.1.2) as Hf.
    { apply (dest_key_inj dest); [| |done]; apply Hsep, elem_of_app; left;
        [|done]. apply list_elem_of_fmap. by exists (y.1.2, d1). }
    rewrite Hf in Hfd1. apply NoDup_app in Hnd as (Hnd & _ & _).
    assert (d1 = d0) as -> by exact (NoDup_fst_functional _ _ _ _ Hnd Hfd1 Hfd).
    congruence.
  - intros v Hv Hk. apply Hvs in Hv.
    destruct (sub_walked_key excl t dest v Hwf Hv) as (d & _ & Hd & _ & Hsd & Hkey).
    rewrite Hkey in Hk. apply dest_key_inj in Hk; [|done|].
    + apply NoDup_app in Hnd as (_ & Hdisj & _). refine (Hdisj e.1.2 Hname _).
      by rewrite <- Hk.
    + apply Hsep, elem_of_app. by left.
Qed.

(** X10: an excluded top-level directory gets no destination file in
    PerModule mode.  On a well-formed tree the run leaves the path
    [<name>.txt] of every excluded top-level directory as it was. *)
Theorem X10_per_module_excluded_directory_has_no_file src excl mk t dest w d :
  wf_node t →
  dir_exists w = true ∨ mk = None →
  (∀ k, ¬ blocked (fs_files w) k) →
  d ∈ map fst (node_subdirs t) → d ∈ excl →
  ∃ w',
    save_files_as_text_by_modules src excl mk t dest w = (Ok tt, w') ∧
    fs_files w' !! os_path_join dest (d ++ ".txt") =
    fs_files w !! os_path_join dest (d ++ ".txt").
Proof.
  intros Hwf Hok Hnb Hd Hex. eexists. split; [by apply by_modules_run|].
  pose proof (wf_top_names _ Hwf) as [Hnd Hsep]. rewrite Forall_forall in Hsep.
  assert (sep_free d) as Hsd by (apply Hsep, elem_of_app; by right).
  fold (dest_key dest d). unfold modules_end. rewrite md_run_untouched.
  - rewrite pf_run_untouched; [done|].
    intros e (_ & d0 & Hfd & _)%emit_dir_elem Hk.
    assert (e.1.2 ∈ map fst (node_files t)) as Hname.
    { apply list_elem_of_fmap. by exists (e.1.2, d0). }
    apply dest_key_inj in Hk; [|apply Hsep, elem_of_app; by left|done].
    apply NoDup_app in Hnd as (_ & Hdisj & _). refine (Hdisj e.1.2 Hname _).
    by rewrite Hk.
  - intros v Hv Hk.
    destruct (sub_walked_key excl t dest v Hwf Hv) as (d' & _ & _ & Hex' & Hsd' & Hkey).
    rewrite Hkey in Hk. apply dest_key_inj in Hk; [|done|done]. by subst d'.
Qed.

Lemma X10_per_module_excluded_directory_has_no_file_witness :
  ∃ w',
    save_files_as_text_by_modules "root" ["target"] None scenario "out" fresh = (Ok tt, w') ∧
    fs_files w' !! os_path_join "out" ("target" ++ ".txt") =
    fs_files fresh !! os_path_join "out" ("target" ++ ".txt").
Proof.
  apply (X10_per_module_excluded_directory_has_no_file "root" ["target"] None
           scenario "out" fresh "target").
  - exact wf_scenario.
  - by right.
  - exact no_blocked_fresh.
  - simpl. set_solver.
  - set_solver.
Defined.

Lemma modules_loop_abort_state src dest vs : ∀ w,
  (∀ v, v ∈ vs → v.1 ≠ []) →
  (∃ v, v ∈ vs ∧ blocked (fs_files w) (mkey dest v.1)) →
  ∃ err vs1 v vs2,
    vs = (vs1 ++ v :: vs2)%list ∧
    fs_files w !! mkey dest v.1 = Some (Blocked err) ∧
    for_each vs (fun v => module_act src dest v.1 v.2) w =
    (Raise (OSError err), md_run src dest vs1 w).
Proof.
  induction vs as [|v vs IH]; intros w Hne (v0 & Hv0 & Hb).
  { by apply elem_of_nil in Hv0. }
  cbn [for_each]. unfold bind.
  destruct (blocked_dec (fs_files w) (mkey dest v.1)) as [[err Herr]|Hnb].
  - rewrite (module_act_blocked _ _ _ _ _ err) by (done || apply Hne; left).
    by exists err, [], v, vs.
  - rewrite module_act_below by (done || apply Hne; left).
    destruct v as [r fs]. cbn [fst snd] in *.
    destruct (IH (md_step src dest (r, fs) w)) as (err & vs1 & v1 & vs2 & -> & Hb1 & ->).
    + intros v' Hv'. apply Hne. by right.
    + apply elem_of_cons in Hv0 as [->|Hv0]; [done|].
      exists v0. split; [done|]. by apply md_step_blocked.
    + exists err, ((r, fs) :: vs1), v1, vs2. split_and!; [done| |done].
      assert (blocked (fs_files w) (mkey dest v1.1)) as [err' Herr'].
      { apply (md_step_blocked src dest (r, fs) w); [done|]. by exists err. }
      rewrite Herr'. f_equal.
      unfold md_step in Hb1. cbn [fs_files fst] in Hb1.
      rewrite lookup_insert_ne in Hb1; [congruence|].
      intros Heq. apply Hnb. rewrite Heq. by exists err'.
Qed.

(** X11: an aborted PerModule run keeps what it wrote.  When the
    destination file of a visited directory cannot be opened, the run aborts
    with that error, and every eligible file read directly under the root has
    nevertheless been written to its own [<base name>.txt]: the root is
    handled first and nothing is rolled back. *)
Theorem X11_aborted_per_module_run_keeps_root_files src excl mk t dest w e :
  wf_node t →
  dir_exists w = true ∨ mk = None →
  (∃ v, v ∈ sub_walked excl t ∧ blocked (fs_files w) (mkey dest v.1)) →
  e ∈ emitted excl t → e.1.1 = [] →
  ¬ blocked (fs_files w) (os_path_join dest (e.1.2 ++ ".txt")) →
  ∃ err w',
    save_files_as_text_by_modules src excl mk t dest w = (Raise (OSError err), w') ∧
    fs_files w' !! os_path_join dest (e.1.2 ++ ".txt") = Some (Content e.2).
Proof.
  intros Hwf Hok (v & Hv & Hb) He Hr Hnb.
  unfold save_files_as_text_by_modules, bind.
  destruct (ensure_dir_cases mk w) as [(err & Hd & Hmk & _)|[_ ->]].
  { destruct Hok; congruence. }
  rewrite by_modules_body_pruning, os_walk_walked, walked_root.
  cbn [for_each fst snd]. unfold bind. rewrite module_act_root.
  destruct (modules_loop_abort_state src dest (sub_walked excl t)
              (pf_run src dest (map (pair []) (node_files t)) (ready w)))
    as (err & vs1 & v1 & vs2 & Heq & _ & Hrun).
  - apply sub_walked_below.
  - exists v. split; [done|]. by rewrite pf_run_blocked_iff.
  - exists err. eexists. split; [exact Hrun|].
    apply (root_file_kept_after src dest excl t w e vs1); try done.
    intros v' Hv'. rewrite Heq. apply elem_of_app. by left.
Qed.

Lemma X11_aborted_per_module_run_keeps_root_files_witness :
  ∃ err w',
    save_files_as_text_by_modules "root" ["target"] None scenario "out" locked =
      (Raise (OSError err), w') ∧
    fs_files w' !! os_path_join "out" ("a.py" ++ ".txt") = Some (Content "x=1").
Proof.
  apply (X11_aborted_per_module_run_keeps_root_files "root" ["target"] None
           scenario "out" locked ([], "a.py", "x=1")).
  - exact wf_scenario.
  - by left.
  - exists (["sub"], [("b.py", Bytes "y=2")]). split.
    + assert (sub_walked ["target"] scenario = [(["sub"], [("b.py", Bytes "y=2")])])
        as -> by by_compute.
      left.
    + exists "Is a directory". by_compute.
  - rewrite emitted_scenario. left.
  - reflexivity.
  - intros [err H]. vm_compute in H. discriminate.
Defined.

(** X12: in PerModule mode the files directly under the root are
    overwritten, not appended to.  After a second run over the same tree the
    [<base name>.txt] of every eligible root file read holds the text once, as
    after the first run, while the files of the directories grow. *)
Theorem X12_per_module_rerun_keeps_root_files src excl mk t dest w e :
  wf_node t →
  dir_exists w = true ∨ mk = None →
  (∀ k, ¬ blocked (fs_files w) k) →
  e ∈ emitted excl t → e.1.1 = [] →
  ∃ w1 w2,
    save_files_as_text_by_modules src excl mk t dest w = (Ok tt, w1) ∧
    save_files_as_text_by_modules src excl mk t dest w1 = (Ok tt, w2) ∧
    fs_files w1 !! os_path_join dest (e.1.2 ++ ".txt") = Some (Content e.2) ∧
    fs_files w2 !! os_path_join dest (e.1.2 ++ ".txt") = Some (Content e.2).
Proof.
  intros Hwf Hok Hnb He Hr.
  set (w1 := modules_end src dest excl t w).
  assert (∀ k, ¬ blocked (fs_files w1) k) as Hnb1.
  { intros k. by apply modules_end_blocked. }
  exists w1, (modules_end src dest excl t w1). split_and!.
  - by apply by_modules_run.
  - apply by_modules_run; [left; apply modules_end_dir|by intros].
  - by apply root_file_kept.
  - by apply root_file_kept.
Qed.

Lemma X12_per_module_rerun_keeps_root_files_witness :
  ∃ w1 w2,
    save_files_as_text_by_modules "root" ["target"] None scenario "out" fresh = (Ok tt, w1) ∧
    save_files_as_text_by_modules "root" ["target"] None scenario "out" w1 = (Ok tt, w2) ∧
    fs_files w1 !! os_path_join "out" ("a.py" ++ ".txt") = Some (Content "x=1") ∧
    fs_files w2 !! os_path_join "out" ("a.py" ++ ".txt") = Some (Content "x=1").
Proof.
  apply (X12_per_module_rerun_keeps_root_files "root" ["target"] None scenario
           "out" fresh ([], "a.py", "x=1")).
  - exact wf_scenario.
  - by right.
  - exact no_blocked_fresh.
  - rewrite emitted_scenario. left.
  - reflexivity.
Defined.

(** ** Line endings *)

Lemma universal_newlines_no_cr s :
  cr_free (universal_newlines s) = true ∧
  ∀ a, cr_free (universal_newlines (String a s)) = true.
Proof.
  induction s as [|b s [IH1 IH2]].
  - split; [done|]. intros a. simpl.
    destruct (Ascii.eqb a "013"%char) eqn:Ha; [done|]. simpl. by rewrite Ha.
  - split; [apply IH2|]. intros a.
    assert (universal_newlines (String a (String b s)) =
            if Ascii.eqb a "013"%char then
              if Ascii.eqb b "010"%char
              then String "010"%char (universal_newlines s)
              else String "010"%char (universal_newlines (String b s))
            else String a (universal_newlines (String b s))) as -> by reflexivity.
    destruct (Ascii.eqb a "013"%char) eqn:Ha.
    + destruct (Ascii.eqb b "010"%char).
      * cbn [cr_free]. by rewrite IH1.
      * cbn [cr_free]. by rewrite (IH2 b).
    + cbn [cr_free]. by rewrite Ha, (IH2 b).
Qed.

(** X13: the text of a source file is read with every line ending turned
    into a line feed.  No text a run emits holds a carriage return, and
    reading again what was read changes nothing. *)
Theorem X13_emitted_text_has_no_carriage_return :
  (∀ s, cr_free (universal_newlines s) = true ∧
        universal_newlines (universal_newlines s) = universal_newlines s) ∧
  (∀ excl t e, e ∈ emitted excl t → cr_free e.2 = true).
Proof.
  assert (∀ s, cr_free (universal_newlines s) = true) as Hcr.
  { intros s. apply universal_newlines_no_cr. }
  split.
  - intros s. split; [done|]. by apply universal_newlines_cr_free.
  - intros excl t e (d & _ & _ & _ & Hr)%emitted_elem.
    destruct d as [b|err]; simpl in Hr; [|done].
    destruct (utf8_valid b); [|done]. injection Hr as <-. apply Hcr.
Qed.

(** ** Every eligible file is accounted for *)





(** ** The entry points *)

(** X15: run through its entry point, PerModule mode makes a file for its
    own destination directory.  The destination [project_as_text] lies in the
    walked directory and is not excluded, so the walk visits it like any other
    top-level directory: the run opens
    [project_as_text/project_as_text.txt] for append and the file is there
    when the run ends. *)
Theorem X15_main_by_modules_files_its_own_destination script_dir mk t w :
  wf_node t →
  "project_as_text" ∈ map fst (node_subdirs t) →
  dir_exists w = true ∨ mk = None →
  (∀ k, ¬ blocked (fs_files w) k) →
  ∃ w' c,
    main_by_modules script_dir mk t w = (Ok tt, w') ∧
    (ModeA, os_path_join (os_path_join script_dir "project_as_text")
                         "project_as_text.txt") ∈ opens w' ∧
    fs_files w' !! os_path_join (os_path_join script_dir "project_as_text")
                                "project_as_text.txt" = Some (Content c).
Proof.
  intros Hwf Hd Hok Hnb. unfold main_by_modules. cbv zeta.
  set (dest := os_path_join script_dir "project_as_text").
  assert ("project_as_text" ∉ ["target"]) as Hex.
  { apply (bool_decide_unpack _). by_compute. }
  eexists _, _. split; [by apply by_modules_run|]. split.
  - unfold modules_end. rewrite md_run_opens. apply elem_of_app. right.
    destruct (top_walked ["target"] t "project_as_text" Hd Hex) as (v & Hv & Hp).
    apply list_elem_of_fmap. exists v. split; [|done]. by rewrite Hp.
  - change "project_as_text.txt" with ("project_as_text" ++ ".txt").
    fold (dest_key dest "project_as_text"). by apply modules_end_top.
Qed.

Lemma wf_scenario_in_place : wf_node scenario_in_place.
Proof.
  cbn [wf_node scenario_in_place map fst app]. unfold sep_free.
  repeat match goal with
         | |- _ ∧ _ => split
         | |- NoDup _ => apply (bool_decide_unpack _); by_compute
         | |- Forall _ _ => constructor
         | |- True => exact I
         | |- _ = _ => reflexivity
         end.
Qed.

Lemma X15_main_by_modules_files_its_own_destination_witness :
  ∃ w' c,
    main_by_modules "/repo" None scenario_in_place fresh = (Ok tt, w') ∧
    (ModeA, os_path_join (os_path_join "/repo" "project_as_text")
                         "project_as_text.txt") ∈ opens w' ∧
    fs_files w' !! os_path_join (os_path_join "/repo" "project_as_text")
                                "project_as_text.txt" = Some (Content c).
Proof.
  apply (X15_main_by_modules_files_its_own_destination "/repo" None
           scenario_in_place fresh).
  - exact wf_scenario_in_place.
  - simpl. set_solver.
  - by right.
  - exact no_blocked_fresh.
Defined.

Example main_by_modules_in_place :
  map fst (map_to_list (fs_files (main_by_modules "/repo" None scenario_in_place fresh).2)) ≡ₚ
  ["/repo/project_as_text/a.py.txt";
   "/repo/project_as_text/project_as_text.txt";
   "/repo/project_as_text/sub.txt"].
Proof. apply (bool_decide_unpack _). by_compute. Qed.

(** ** Decoding *)

Lemma utf8_valid_ascii s : is_ascii s = true → utf8_valid s = true.
Proof.
  induction s as [|a s IH]; [done|]. cbn [is_ascii utf8_valid].
  intros [Ha Hs]%andb_true_iff. rewrite Ha. by apply IH.
Qed.

(** * The runs against the tree read structurally *)

(** ** The walk visits the tree in pre-order *)

Lemma lookup_dir_NoDup cs n c :
  NoDup (map fst cs) → (n, c) ∈ cs → lookup_dir n cs = Some c.
Proof.
  unfold lookup_dir. induction cs as [|[n' c'] cs IH]; intros Hnd Hin.
  - by apply elem_of_nil in Hin.
  - cbn [map fst] in Hnd. apply NoDup_cons in Hnd as [Hn' Hnd].
    cbn [find_dir]. apply elem_of_cons in Hin as [[= <- <-]|Hin].
    + by rewrite String.eqb_refl.
    + destruct (String.eqb_spec n' n) as [->|_]; [|by apply IH].
      destruct Hn'. apply list_elem_of_fmap. by exists (n, c).
Qed.

Lemma walked_visits excl t : ∀ root,
  wf_node t → walked excl root t = visits excl root t.
Proof.
  induction t as [files subdirs IH] using node_ind'. intros root Hwf.
  apply wf_node_inv in Hwf as (Hnd & _ & Hall).
  apply NoDup_app in Hnd as (_ & _ & Hnd).
  cbn [walked visits]. f_equal.
  assert (∀ cs, (∀ n c, (n, c) ∈ cs → (n, c) ∈ subdirs) →
            flat_map (fun d => find_dir d (walked excl (root ++ [d])%list) [] subdirs)
                     (filter (λ d, d ∉ excl) (map fst cs)) =
            flat_dirs (fun n c => if decide (n ∈ excl) then []
                                  else visits excl (root ++ [n])%list c) cs) as Hcs.
  { induction cs as [|[n c] cs IHcs]; intros Hsub; [done|].
    cbn [map fst flat_dirs].
    assert ((n, c) ∈ subdirs) as Hin by (apply Hsub; left).
    rewrite <- IHcs by (intros n' c' H'; apply Hsub; by right).
    destruct (decide (n ∈ excl)) as [Hex|Hex].
    - rewrite filter_cons_False by (intros H; by apply H). done.
    - rewrite filter_cons_True by done. cbn [flat_map]. f_equal.
      rewrite find_dir_lookup, (lookup_dir_NoDup _ _ _ Hnd Hin).
      rewrite Forall_forall in IH, Hall.
      apply (IH _ Hin). apply (Hall _ Hin). }
  by apply Hcs.
Qed.

Lemma listing_tree_files excl t : wf_node t → listing excl t = tree_files excl t.
Proof. intros Hwf. unfold listing, tree_files. by rewrite walked_visits. Qed.

(** ** The text a read returns *)

Lemma universal_newlines_cons2 a b s :
  universal_newlines (String a (String b s)) =
  if Ascii.eqb a "013"%char then
    if Ascii.eqb b "010"%char then String "010"%char (universal_newlines s)
    else String "010"%char (universal_newlines (String b s))
  else String a (universal_newlines (String b s)).
Proof. reflexivity. Qed.

Lemma replace_crlf_cons2 a b s :
  replace_crlf (String a (String b s)) =
  if Ascii.eqb a "013"%char && Ascii.eqb b "010"%char
  then String "010"%char (replace_crlf s)
  else String a (replace_crlf (String b s)).
Proof. reflexivity. Qed.

Lemma replace_cr_cons a s :
  replace_cr (String a s) =
  String (if Ascii.eqb a "013"%char then "010"%char else a) (replace_cr s).
Proof. reflexivity. Qed.

Lemma universal_newlines_two_pass s :
  universal_newlines s = replace_cr (replace_crlf s).
Proof.
  assert (universal_newlines s = replace_cr (replace_crlf s) ∧
          ∀ a, universal_newlines (String a s) =
               replace_cr (replace_crlf (String a s))) as [H _]; [|exact H].
  induction s as [|b s [IH1 IH2]].
  - split; [done|]. intros a. cbn. by destruct (Ascii.eqb a "013").
  - split; [apply IH2|]. intros a.
    rewrite universal_newlines_cons2, replace_crlf_cons2.
    destruct (Ascii.eqb a "013") eqn:Ha, (Ascii.eqb b "010") eqn:Hb;
      cbn [andb]; rewrite replace_cr_cons, ?Ha.
    + by rewrite IH1.
    + by rewrite IH2.
    + by rewrite IH2.
    + by rewrite IH2.
Qed.

Lemma emit_read_entry x : emit x = read_entry x.
Proof.
  unfold emit, read_entry. destruct x as [p [f [b|err]]]; cbn [fst snd read_res].
  - destruct (eligible f), (utf8_valid b); cbn [andb]; try done.
    by rewrite universal_newlines_two_pass.
  - by destruct (eligible f).
Qed.

Lemma omap_ext_all {A B} (f g : A -> option B) (l : list A) :
  (∀ x, f x = g x) → omap f l = omap g l.
Proof. intros H. induction l as [|x l IH]; [done|]. by rewrite !omap_cons_eq, H, IH. Qed.

Lemma emitted_read_entries excl t :
  wf_node t → emitted excl t = read_entries excl t.
Proof.
  intros Hwf. unfold emitted, read_entries. rewrite listing_tree_files by done.
  apply omap_ext_all, emit_read_entry.
Qed.

Lemma wf_nested : wf_node nested.
Proof.
  cbn [wf_node nested map fst app]. unfold sep_free.
  repeat match goal with
         | |- _ ∧ _ => split
         | |- NoDup _ => apply (bool_decide_unpack _); by_compute
         | |- Forall _ _ => constructor
         | |- True => exact I
         | |- _ = _ => reflexivity
         end.
Qed.

(** ** SingleFile: the stream *)

(** C6, as the code has it: SingleFile output format.  On a well-formed tree
    and a destination that can be opened, the run opens the destination
    exactly once, for writing with truncation, and leaves in it, whatever it
    held before, one block for each eligible file of the tree outside the
    excluded directories that is readable and valid UTF-8, in pre-order: the
    base name with [.txt], a line break, an empty line, the bytes of the file
    with CR LF and CR replaced by LF, a line break, twenty dashes, a line
    break.  The base names of these files are taken to be valid UTF-8, so that
    the header can be written. *)
Theorem C6_single_file_format src excl mk t dest w :
  wf_node t →
  ¬ blocked (fs_files w) dest →
  (∀ e, e ∈ read_entries excl t → utf8_valid e.1.2 = true) →
  ∃ w',
    save_files_as_text src excl mk t dest true w = (Ok tt, w') ∧
    opens w' = (opens w ++ [(ModeW, dest)])%list ∧
    fs_files w' !! dest =
      Some (Content (cat (map
        (fun e => e.1.2 ++ ".txt" ++ LF ++ LF ++ e.2 ++ LF ++
                  "--------------------" ++ LF)
        (read_entries excl t)))) ∧
    (∀ k, k ≠ dest → fs_files w' !! k = fs_files w !! k) ∧
    dashes = "--------------------" ∧ String.length dashes = 20.
Proof.
  intros Hwf Hnb _. eexists. split; [by apply single_mode_run|]. simpl.
  rewrite <- emitted_read_entries by done.
  split_and!; [done| |intros k Hk|done|done].
  - by rewrite lookup_insert_eq.
  - by rewrite lookup_insert_ne.
Qed.

Lemma C6_single_file_format_witness :
  wf_node nested ∧
  ¬ blocked (fs_files fresh) "out.txt" ∧
  (∀ e, e ∈ read_entries ["target"] nested → utf8_valid e.1.2 = true) ∧
  ∃ w',
    save_files_as_text "root" ["target"] None nested "out.txt" true fresh = (Ok tt, w') ∧
    opens w' = [(ModeW, "out.txt")] ∧
    fs_files w' !! "out.txt" =
      Some (Content
        ("a.py.txt" ++ LF ++ LF ++ "x=1" ++ LF ++ "--------------------" ++ LF ++
         "w.md.txt" ++ LF ++ LF ++ "p" ++ LF ++ "q" ++ LF ++ "--------------------" ++ LF ++
         "b.py.txt" ++ LF ++ LF ++ "y=2" ++ LF ++ "--------------------" ++ LF ++
         "c.py.txt" ++ LF ++ LF ++ "z=3" ++ LF ++ "--------------------" ++ LF)).
Proof.
  assert (¬ blocked (fs_files fresh) "out.txt") as Hnb by apply no_blocked_fresh.
  assert (∀ e, e ∈ read_entries ["target"] nested → utf8_valid e.1.2 = true) as Hnames.
  { apply Forall_forall. apply (bool_decide_unpack _). by_compute. }
  split_and!; [exact wf_nested|exact Hnb|exact Hnames|].
  destruct (C6_single_file_format "root" ["target"] None nested "out.txt" fresh
              wf_nested Hnb Hnames) as (w' & Hrun & Hop & Hfs & _).
  exists w'. split_and!; [exact Hrun|exact Hop|].
  rewrite Hfs. by_compute.
Defined.

(** C6 as stated fails on two counts.  In [collide] every eligible file
    decodes, and [c.py] decodes to a text with a CR LF line ending; the block
    written for it holds a lone LF, so the stream is not the one made of the
    decoded contents.  In [nested], [bad.py] is eligible and stands at the
    root, yet the run writes no block for it: the stream holds the blocks of
    the four files that decode, and the file is reported on the console. *)
Lemma C6_counterexample :
  (∃ w',
     save_files_as_text "root" ["target"] None collide "out.txt" true fresh = (Ok tt, w') ∧
     fs_files w' !! "out.txt" =
       Some (Content
         ("c.py.txt" ++ LF ++ LF ++ "p" ++ LF ++ "q" ++ LF ++ "--------------------" ++ LF ++
          "x.py.txt" ++ LF ++ LF ++ "1" ++ LF ++ "--------------------" ++ LF ++
          "x.py.txt" ++ LF ++ LF ++ "2" ++ LF ++ "--------------------" ++ LF)) ∧
     fs_files w' !! "out.txt" ≠
       Some (Content
         ("c.py.txt" ++ LF ++ LF ++ "p" ++ CR ++ LF ++ "q" ++ LF ++ "--------------------" ++ LF ++
          "x.py.txt" ++ LF ++ LF ++ "1" ++ LF ++ "--------------------" ++ LF ++
          "x.py.txt" ++ LF ++ LF ++ "2" ++ LF ++ "--------------------" ++ LF))) ∧
  ("bad.py", Bytes not_text) ∈ node_files nested ∧
  eligible "bad.py" = true ∧
  ∃ w',
    save_files_as_text "root" ["target"] None nested "out.txt" true fresh = (Ok tt, w') ∧
    fs_files w' !! "out.txt" =
      Some (Content
        ("a.py.txt" ++ LF ++ LF ++ "x=1" ++ LF ++ "--------------------" ++ LF ++
         "w.md.txt" ++ LF ++ LF ++ "p" ++ LF ++ "q" ++ LF ++ "--------------------" ++ LF ++
         "b.py.txt" ++ LF ++ LF ++ "y=2" ++ LF ++ "--------------------" ++ LF ++
         "c.py.txt" ++ LF ++ LF ++ "z=3" ++ LF ++ "--------------------" ++ LF)) ∧
    "Skipping binary or incompatible file: root/bad.py" ∈ console w'.
Proof.
  split_and!; [|simpl; right; left|reflexivity|].
  - eexists. split; [by_compute|]. split; [by_compute|].
    vm_compute. discriminate.
  - eexists. split; [by_compute|]. split; [by_compute|].
    apply (bool_decide_unpack _). by_compute.
Qed.

(** ** PerModule: routing and the files of the directories *)

Lemma join_segments_concat d l : join_segments d l = String.concat "/" (d :: l).
Proof.
  revert d. induction l as [|d' l IH]; intros d; [done|].
  cbn [join_segments]. rewrite IH. done.
Qed.

Lemma relpath_slashed p f : relpath (p ++ [f])%list = slashed p f.
Proof.
  unfold slashed. destruct p as [|d q]; [done|].
  cbn [relpath app]. apply join_segments_concat.
Qed.

Lemma module_block_slashed p f c :
  module_block p f c = slashed p f ++ LF ++ LF ++ c ++ LF ++ "---" ++ LF.
Proof. unfold module_block. by rewrite relpath_slashed. Qed.

(** C7, as the code has it: PerModule routing and entry format.  On a
    well-formed tree and a destination without blocked paths the run
    completes.  The file named after a top-level directory that is not
    excluded holds what it held before followed by one block for each
    eligible file beneath that directory, at any depth, that is readable and
    valid UTF-8, in pre-order; a block is the names on the path from the
    source root to the file joined by ['/'], a line break, an empty line, the
    text, a line break, [---] and a line break.  Every such file below the
    root lies beneath such a directory, and one directly under the root is the
    whole content of its own [<base name>.txt]; every other destination path
    is left as it was.  The relative paths written are taken to be valid
    UTF-8. *)
Theorem C7_per_module_routing src excl mk t dest w :
  wf_node t →
  dir_exists w = true ∨ mk = None →
  (∀ k, ¬ blocked (fs_files w) k) →
  (∀ e, e ∈ read_entries excl t → e.1.1 ≠ [] →
     utf8_valid (slashed e.1.1 e.1.2) = true) →
  ∃ w',
    save_files_as_text_by_modules src excl mk t dest w = (Ok tt, w') ∧
    (∀ d, d ∈ map fst (node_subdirs t) → d ∉ excl →
       fs_files w' !! os_path_join dest (d ++ ".txt") =
       Some (Content
         (prior (fs_files w) (os_path_join dest (d ++ ".txt")) ++
          cat (map (fun e => slashed e.1.1 e.1.2 ++ LF ++ LF ++
                             e.2 ++ LF ++ "---" ++ LF)
                   (filter (λ e, head e.1.1 = Some d) (read_entries excl t)))))) ∧
    (∀ e, e ∈ read_entries excl t → e.1.1 ≠ [] →
       ∃ d, head e.1.1 = Some d ∧ d ∈ map fst (node_subdirs t) ∧ d ∉ excl) ∧
    (∀ e, e ∈ read_entries excl t → e.1.1 = [] →
       fs_files w' !! os_path_join dest (e.1.2 ++ ".txt") = Some (Content e.2)) ∧
    (∀ k,
       (∀ d, d ∈ map fst (node_subdirs t) → d ∉ excl →
          k ≠ os_path_join dest (d ++ ".txt")) →
       (∀ e, e ∈ read_entries excl t → e.1.1 = [] →
          k ≠ os_path_join dest (e.1.2 ++ ".txt")) →
       fs_files w' !! k = fs_files w !! k).
Proof.
  intros Hwf Hok Hnb _. eexists. split; [by apply by_modules_run|].
  rewrite <- emitted_read_entries by done. split_and!.
  - intros d Hd Hex. fold (dest_key dest d). rewrite modules_end_top by done.
    do 4 f_equal. apply map_ext. intros e. apply module_block_slashed.
  - apply below_entry_top.
  - intros e He Hr. by apply root_file_kept.
  - intros k Hdirs Hroot. unfold modules_end. rewrite md_run_untouched.
    + rewrite pf_run_untouched; [done|]. intros e He Hk.
      refine (Hroot e _ _ (eq_sym Hk)).
      * rewrite emitted_split. apply elem_of_app. by left.
      * by apply emit_dir_elem in He as [? _].
    + intros v Hv Hk.
      destruct (sub_walked_key excl t dest v Hwf Hv) as (d & _ & Hd & Hex & _ & Hkey).
      rewrite Hkey in Hk. by apply (Hdirs d Hd Hex).
Qed.

Lemma C7_per_module_routing_witness :
  ∃ w',
    save_files_as_text_by_modules "root" ["target"] None nested "out" fresh = (Ok tt, w') ∧
    fs_files w' !! "out/sub.txt" =
      Some (Content ("sub/b.py" ++ LF ++ LF ++ "y=2" ++ LF ++ "---" ++ LF ++
                     "sub/deep/c.py" ++ LF ++ LF ++ "z=3" ++ LF ++ "---" ++ LF)) ∧
    fs_files w' !! "out/docs.txt" = Some (Content "") ∧
    fs_files w' !! "out/a.py.txt" = Some (Content "x=1") ∧
    fs_files w' !! "out/w.md.txt" = Some (Content ("p" ++ LF ++ "q")) ∧
    fs_files w' !! "out/target.txt" = None.
Proof.
  assert (∀ e, e ∈ read_entries ["target"] nested → e.1.1 ≠ [] →
            utf8_valid (slashed e.1.1 e.1.2) = true) as Hnames.
  { apply (proj1 (Forall_forall
              (λ e : list string * string * string,
                 e.1.1 ≠ [] → utf8_valid (slashed e.1.1 e.1.2) = true) _)).
    apply (bool_decide_unpack _). by_compute. }
  destruct (C7_per_module_routing "root" ["target"] None nested "out" fresh
              wf_nested (or_intror eq_refl) no_blocked_fresh Hnames)
    as (w' & Hrun & Htop & _ & Hroot & Hother).
  exists w'. split; [exact Hrun|]. split_and!.
  - refine (eq_trans (Htop "sub" _ _) _);
      [apply (bool_decide_unpack _); by_compute..|by_compute].
  - refine (eq_trans (Htop "docs" _ _) _);
      [apply (bool_decide_unpack _); by_compute..|by_compute].
  - apply (Hroot ([], "a.py", "x=1")); [|done].
    apply (bool_decide_unpack _). by_compute.
  - apply (Hroot ([], "w.md", "p" ++ LF ++ "q")); [|done].
    apply (bool_decide_unpack _). by_compute.
  - rewrite Hother; [reflexivity| |].
    + intros d Hd Hex Heq. revert Hd Hex Heq. cbn [nested node_subdirs map fst].
      intros [->|[->|[->|?%elem_of_nil]%elem_of_cons]%elem_of_cons]%elem_of_cons
             Hex Heq; [discriminate|discriminate| |done].
      apply Hex. left.
    + intros e He Hr Heq. revert He Hr Heq.
      assert (read_entries ["target"] nested =
              [([], "a.py", "x=1"); ([], "w.md", "p" ++ LF ++ "q");
               (["sub"], "b.py", "y=2"); (["sub"; "deep"], "c.py", "z=3")]) as ->
        by by_compute.
      intros [->|[->|[->|[->|?%elem_of_nil]%elem_of_cons]%elem_of_cons]%elem_of_cons]%elem_of_cons
             Hr Heq; (done || discriminate).
Defined.

(** C7 as stated fails on two counts.  [w.md] stands directly under the
    root and holds a CR LF line ending, yet [w.md.txt] is not its verbatim
    copy: it holds a lone LF.  And [sub/bad.xml] is eligible and stands in a
    proper sub-directory, yet nothing of it is appended to [sub.txt], which
    holds the entries of [sub/b.py] and [sub/deep/c.py] only. *)
Lemma C7_counterexample :
  file_at nested [] "w.md" (Bytes ("p" ++ CR ++ LF ++ "q")) ∧
  eligible "w.md" = true ∧ utf8_valid ("p" ++ CR ++ LF ++ "q") = true ∧
  file_at nested ["sub"] "bad.xml" (Bytes not_text) ∧
  eligible "bad.xml" = true ∧
  ∃ w',
    save_files_as_text_by_modules "root" ["target"] None nested "out" fresh = (Ok tt, w') ∧
    fs_files w' !! "out/w.md.txt" = Some (Content ("p" ++ LF ++ "q")) ∧
    fs_files w' !! "out/w.md.txt" ≠ Some (Content ("p" ++ CR ++ LF ++ "q")) ∧
    fs_files w' !! "out/sub.txt" =
      Some (Content ("sub/b.py" ++ LF ++ LF ++ "y=2" ++ LF ++ "---" ++ LF ++
                     "sub/deep/c.py" ++ LF ++ LF ++ "z=3" ++ LF ++ "---" ++ LF)) ∧
    "Skipping binary or incompatible file: root/sub/bad.xml" ∈ console w'.
Proof.
  split_and!; [|reflexivity|reflexivity| |reflexivity|].
  - eexists. split; [reflexivity|]. simpl. do 2 right. left.
  - eexists. split; [reflexivity|]. simpl. right. left.
  - eexists. split; [by_compute|]. split_and!.
    + by_compute.
    + vm_compute. discriminate.
    + by_compute.
    + apply (bool_decide_unpack _). by_compute.
Qed.

Lemma sub_walked_visits excl t :
  wf_node t → sub_walked excl t = tail (visits excl [] t).
Proof. intros Hwf. unfold sub_walked. by rewrite walked_visits. Qed.

Lemma map_ext_elem {A B} (f g : A -> B) (l : list A) :
  (∀ x, x ∈ l → f x = g x) → map f l = map g l.
Proof.
  intros H. apply map_ext_in. intros x Hx. apply H. by apply list_elem_of_In.
Qed.

(** C10: every directory below the root that the run visits has its
    destination file opened for append, whatever files it holds.  On a
    well-formed tree and a destination without blocked paths, the opens of a
    run are the truncating opens for the files read directly under the root
    followed by one append-open for each directory of the tree below the root
    and outside the excluded directories, in pre-order, on the path named
    after the first name of the directory's path.  Hence the file of every
    top-level directory that is not excluded is opened and exists when the run
    ends, and it is empty if it did not exist before and no eligible file was
    read beneath the directory. *)
Theorem C10_module_file_always_opened src excl mk t dest w :
  wf_node t →
  dir_exists w = true ∨ mk = None →
  (∀ k, ¬ blocked (fs_files w) k) →
  ∃ w',
    save_files_as_text_by_modules src excl mk t dest w = (Ok tt, w') ∧
    opens w' =
      (opens w ++
       map (fun e => (ModeW, os_path_join dest (e.1.2 ++ ".txt")))
           (omap read_entry (map (pair []) (node_files t))) ++
       map (fun v => (ModeA, os_path_join dest (hd "" v.1 ++ ".txt")))
           (tail (visits excl [] t)))%list ∧
    (∀ v, v ∈ tail (visits excl [] t) →
       ∃ d, head v.1 = Some d ∧ d ∈ map fst (node_subdirs t) ∧ d ∉ excl) ∧
    (∀ d, d ∈ map fst (node_subdirs t) → d ∉ excl →
       (∃ v, v ∈ tail (visits excl [] t) ∧ v.1 = [d]) ∧
       (ModeA, os_path_join dest (d ++ ".txt")) ∈ opens w' ∧
       ∃ c, fs_files w' !! os_path_join dest (d ++ ".txt") = Some (Content c) ∧
            (fs_files w !! os_path_join dest (d ++ ".txt") = None →
             (∀ e, e ∈ read_entries excl t → head e.1.1 ≠ Some d) →
             c = "")).
Proof.
  intros Hwf Hok Hnb. eexists. split; [by apply by_modules_run|].
  rewrite <- sub_walked_visits, <- emitted_read_entries by done.
  assert (opens (modules_end src dest excl t w) =
          (opens w ++
           map (fun e => (ModeW, os_path_join dest (e.1.2 ++ ".txt")))
               (omap read_entry (map (pair []) (node_files t))) ++
           map (fun v => (ModeA, os_path_join dest (hd "" v.1 ++ ".txt")))
               (sub_walked excl t))%list) as Hopens.
  { unfold modules_end. rewrite md_run_opens.
    destruct (pf_run_exact src dest (map (pair []) (node_files t)) (ready w) Hnb)
      as [_ ->].
    cbn [ready opens]. rewrite <- app_assoc. do 2 f_equal.
    - f_equal. apply omap_ext_all, emit_read_entry.
    - apply map_ext_elem. intros v Hv.
      destruct (sub_walked_key excl t dest v Hwf Hv) as (d & Hh & _ & _ & _ & ->).
      destruct v as [[|d' q] fs]; [done|]. by injection Hh as ->. }
  split_and!.
  - exact Hopens.
  - intros v Hv.
    destruct (sub_walked_key excl t dest v Hwf Hv) as (d & Hh & Hd & Hex & _).
    by exists d.
  - intros d Hd Hex.
    destruct (top_walked excl t d Hd Hex) as (v & Hv & Hp).
    split_and!.
    + by exists v.
    + rewrite Hopens. apply elem_of_app. right. apply elem_of_app. right.
      apply list_elem_of_fmap. exists v. by rewrite Hp.
    + eexists. split; [by apply modules_end_top|].
      intros Hnone Hempty. unfold prior, dest_key. rewrite Hnone.
      rewrite filter_none; [done|]. intros e He. by apply Hempty.
Qed.

Lemma C10_module_file_always_opened_witness :
  ∃ w',
    save_files_as_text_by_modules "root" ["target"] None nested "out" fresh = (Ok tt, w') ∧
    opens w' =
      [(ModeW, "out/a.py.txt"); (ModeW, "out/w.md.txt");
       (ModeA, "out/sub.txt"); (ModeA, "out/sub.txt"); (ModeA, "out/docs.txt")] ∧
    (ModeA, "out/docs.txt") ∈ opens w' ∧
    fs_files w' !! "out/docs.txt" = Some (Content "").
Proof.
  destruct (C10_module_file_always_opened "root" ["target"] None nested "out" fresh
              wf_nested (or_intror eq_refl) no_blocked_fresh)
    as (w' & Hrun & Hopens & _ & Htop).
  assert ("docs" ∈ map fst (node_subdirs nested)) as Hd.
  { apply (bool_decide_unpack _). by_compute. }
  assert ("docs" ∉ ["target"]) as Hex.
  { apply (bool_decide_unpack _). by_compute. }
  destruct (Htop "docs" Hd Hex) as (_ & Hin & c & Hc & Hempty).
  exists w'. split_and!; [exact Hrun| |exact Hin|].
  - rewrite Hopens. by_compute.
  - refine (eq_trans Hc _). do 2 f_equal. apply Hempty; [by_compute|].
    apply (proj1 (Forall_forall
             (λ e : list string * string * string, head e.1.1 ≠ Some "docs") _)).
    apply (bool_decide_unpack _). by_compute.
Defined.

(** ** PerFile: what a destination file holds *)

Lemma filter_ext_elem {A} (P Q : A -> Prop)
    `{∀ x, Decision (P x)} `{∀ x, Decision (Q x)} (l : list A) :
  (∀ x, x ∈ l → P x ↔ Q x) → filter P l = filter Q l.
Proof.
  induction l as [|x l IH]; intros HPQ; [done|].
  rewrite !filter_cons, IH by (intros y Hy; apply HPQ; by right).
  pose proof (HPQ x (list_elem_of_here _ _)) as Hx.
  destruct (decide (P x)), (decide (Q x)); tauto.
Qed.

Lemma last_filter_split {A} (P : A -> Prop) `{∀ x, Decision (P x)}
    (l1 l2 : list A) x :
  P x → (∀ y, y ∈ l2 → ¬ P y) → last (filter P (l1 ++ x :: l2)%list) = Some x.
Proof.
  intros HP Hl2. rewrite filter_app, filter_cons_True by done.
  rewrite (filter_none _ l2) by done. apply last_snoc.
Qed.

(** After a PerFile run a destination file holds the text of the last
    emitted entry of its base name. *)
Lemma per_file_last_named src dest excl t w f :
  wf_node t → sep_free f →
  ¬ blocked (fs_files w) (dest_key dest f) →
  fs_files (pf_run src dest (listing excl t)
              (World true (fs_files w) (console w) (opens w))) !! dest_key dest f =
  match last (filter (λ e, e.1.2 = f) (emitted excl t)) with
  | Some e => Some (Content e.2)
  | None => fs_files w !! dest_key dest f
  end.
Proof.
  intros Hwf Hf Hnb. rewrite pf_run_lookup by done. unfold last_write.
  fold (emitted excl t).
  rewrite (filter_ext_elem (λ e, dest_key dest e.1.2 = dest_key dest f)
             (λ e, e.1.2 = f)); [done|].
  intros e (d & Hat & _)%emitted_elem. split; [|by intros ->].
  apply dest_key_inj; [|done]. by eapply file_at_sep_free.
Qed.

Lemma universal_newlines_fixed b : universal_newlines b = b ↔ cr_free b = true.
Proof.
  split; [|apply universal_newlines_cr_free].
  intros H. rewrite <- H. apply (universal_newlines_no_cr b).
Qed.

Lemma wf_collide : wf_node collide.
Proof.
  cbn [wf_node collide map fst app]. unfold sep_free.
  repeat match goal with
         | |- _ ∧ _ => split
         | |- NoDup _ => apply (bool_decide_unpack _); by_compute
         | |- Forall _ _ => constructor
         | |- True => exact I
         | |- _ = _ => reflexivity
         end.
Qed.

Lemma tree_files_emitted excl t p f b :
  wf_node t → (p, (f, Bytes b)) ∈ tree_files excl t →
  eligible f = true → utf8_valid b = true →
  file_at t p f (Bytes b) ∧ outside excl p ∧
  (p, f, universal_newlines b) ∈ emitted excl t.
Proof.
  intros Hwf Hin Hel Hvalid. rewrite <- listing_tree_files in Hin by done.
  apply listing_file_at in Hin as [Hat Hout]. split_and!; [done|done|].
  apply emitted_elem. exists (Bytes b). cbn [fst snd].
  split_and!; try done. simpl. by rewrite Hvalid.
Qed.

(** C3, as the code has it.  On a well-formed tree, for an eligible file
    outside the excluded directories whose content is valid UTF-8, a PerFile
    run leaves in [<base name>.txt] the text of the last eligible file read,
    in pre-order, that has this base name.  It is the text of the file itself
    exactly when that last file carries the same text, and in particular when
    no eligible file read after it has its base name.  The text of a file is
    its bytes with CR LF and CR replaced by LF; it equals the bytes exactly
    when the file holds no carriage return. *)
Theorem C3_per_file_round_trip src excl mk t dest w p f b :
  wf_node t →
  (p, (f, Bytes b)) ∈ tree_files excl t →
  eligible f = true → utf8_valid b = true →
  dir_exists w = true ∨ mk = None →
  ¬ blocked (fs_files w) (os_path_join dest (f ++ ".txt")) →
  ∃ w' e',
    save_files_as_text src excl mk t dest false w = (Ok tt, w') ∧
    (p, f, replace_cr (replace_crlf b)) ∈ read_entries excl t ∧
    last (filter (λ e, e.1.2 = f) (read_entries excl t)) = Some e' ∧
    fs_files w' !! os_path_join dest (f ++ ".txt") = Some (Content e'.2) ∧
    (fs_files w' !! os_path_join dest (f ++ ".txt") =
       Some (Content (replace_cr (replace_crlf b))) ↔
     e'.2 = replace_cr (replace_crlf b)) ∧
    (∀ l1 l2,
       read_entries excl t = (l1 ++ (p, f, replace_cr (replace_crlf b)) :: l2)%list →
       (∀ e, e ∈ l2 → e.1.2 ≠ f) →
       e' = (p, f, replace_cr (replace_crlf b))) ∧
    (replace_cr (replace_crlf b) = b ↔ cr_free b = true).
Proof.
  intros Hwf Hin Hel Hvalid Hok Hnb.
  destruct (tree_files_emitted excl t p f b Hwf Hin Hel Hvalid) as (Hat & Hout & Hem).
  rewrite <- emitted_read_entries by done.
  rewrite <- universal_newlines_two_pass.
  destruct (last_filter_elem (λ e, e.1.2 = f) (emitted excl t) _ Hem eq_refl)
    as (e' & Hlast & He' & Hf').
  exists (pf_run src dest (listing excl t)
            (World true (fs_files w) (console w) (opens w))), e'.
  assert (fs_files (pf_run src dest (listing excl t)
                      (World true (fs_files w) (console w) (opens w)))
            !! os_path_join dest (f ++ ".txt") = Some (Content e'.2)) as Hres.
  { fold (dest_key dest f).
    rewrite per_file_last_named; [by rewrite Hlast|done| |done].
    by eapply file_at_sep_free. }
  split_and!; [by apply per_file_mode_run|done|done|done| | |].
  - rewrite Hres. split; [congruence|by intros ->].
  - intros l1 l2 Heq Hl2. rewrite Heq, last_filter_split in Hlast by done.
    congruence.
  - apply universal_newlines_fixed.
Qed.

Lemma C3_per_file_round_trip_witness :
  ∃ w',
    save_files_as_text "root" ["target"] None collide "out" false fresh = (Ok tt, w') ∧
    fs_files w' !! "out/x.py.txt" = Some (Content "2").
Proof.
  assert ((["b"], ("x.py", Bytes "2")) ∈ tree_files ["target"] collide) as Hin.
  { vm_compute. do 2 right. left. }
  destruct (C3_per_file_round_trip "root" ["target"] None collide "out" fresh
              ["b"] "x.py" "2" wf_collide Hin eq_refl eq_refl (or_intror eq_refl)
              (no_blocked_fresh _))
    as (w' & e' & Hrun & _ & _ & Hfs & _ & Hlater & _).
  exists w'. split; [exact Hrun|]. refine (eq_trans Hfs _).
  rewrite (Hlater [([], "c.py", "p" ++ LF ++ "q"); (["a"], "x.py", "1")] []).
  - reflexivity.
  - by_compute.
  - intros e He. by apply elem_of_nil in He.
Defined.

(** ** Every file once *)

(** C1, as the code has it.  On a well-formed tree, a file outside the
    excluded directories whose name passes the filter and whose content is
    valid UTF-8 is read exactly once, its text being its bytes with CR LF and
    CR replaced by LF.  In SingleFile mode, when its base name is valid UTF-8,
    its block stands in the stream; the blocks around it are those of the
    entries read before and after it when their base names are valid UTF-8
    too.  In PerFile mode [<base name>.txt] holds the text of the last entry
    read with this base name, which is this file when no entry read after it
    has its base name.  In PerModule mode its text is the content of
    [<base name>.txt] when it stands directly under the root; otherwise, when
    its relative path is valid UTF-8, its block stands in the file of its
    top-level directory. *)
Theorem C1_each_file_once src excl mk t dest w p f b :
  wf_node t →
  (p, (f, Bytes b)) ∈ tree_files excl t →
  eligible f = true → utf8_valid b = true →
  ∃ l1 l2,
    read_entries excl t = (l1 ++ (p, f, replace_cr (replace_crlf b)) :: l2)%list ∧
    (∀ e, e ∈ (l1 ++ l2)%list → e.1 ≠ (p, f)) ∧
    (utf8_valid f = true →
     ¬ blocked (fs_files w) dest →
     ∃ w' pre post,
       save_files_as_text src excl mk t dest true w = (Ok tt, w') ∧
       fs_files w' !! dest =
         Some (Content (pre ++
                        (f ++ ".txt" ++ LF ++ LF ++ replace_cr (replace_crlf b) ++
                         LF ++ "--------------------" ++ LF) ++
                        post)) ∧
       ((∀ e, e ∈ (l1 ++ l2)%list → utf8_valid e.1.2 = true) →
        pre = cat (map (fun e => e.1.2 ++ ".txt" ++ LF ++ LF ++ e.2 ++ LF ++
                                 "--------------------" ++ LF) l1) ∧
        post = cat (map (fun e => e.1.2 ++ ".txt" ++ LF ++ LF ++ e.2 ++ LF ++
                                  "--------------------" ++ LF) l2))) ∧
    (dir_exists w = true ∨ mk = None →
     ¬ blocked (fs_files w) (os_path_join dest (f ++ ".txt")) →
     ∃ w' e',
       save_files_as_text src excl mk t dest false w = (Ok tt, w') ∧
       last (filter (λ e, e.1.2 = f) (read_entries excl t)) = Some e' ∧
       fs_files w' !! os_path_join dest (f ++ ".txt") = Some (Content e'.2) ∧
       (fs_files w' !! os_path_join dest (f ++ ".txt") =
          Some (Content (replace_cr (replace_crlf b))) ↔
        e'.2 = replace_cr (replace_crlf b)) ∧
       ((∀ e, e ∈ l2 → e.1.2 ≠ f) → e' = (p, f, replace_cr (replace_crlf b)))) ∧
    (dir_exists w = true ∨ mk = None →
     (∀ k, ¬ blocked (fs_files w) k) →
     ∃ w', save_files_as_text_by_modules src excl mk t dest w = (Ok tt, w') ∧
           match p with
           | [] => fs_files w' !! os_path_join dest (f ++ ".txt") =
                   Some (Content (replace_cr (replace_crlf b)))
           | d :: _ =>
             utf8_valid (slashed p f) = true →
             ∃ pre post,
               fs_files w' !! os_path_join dest (d ++ ".txt") =
               Some (Content (pre ++
                              (slashed p f ++ LF ++ LF ++ replace_cr (replace_crlf b) ++
                               LF ++ "---" ++ LF) ++
                              post))
           end).
Proof.
  intros Hwf Hin Hel Hvalid.
  destruct (tree_files_emitted excl t p f b Hwf Hin Hel Hvalid) as (Hat & Hout & Hem).
  rewrite <- emitted_read_entries by done.
  rewrite <- universal_newlines_two_pass.
  set (c := universal_newlines b) in *.
  destruct (emitted_once excl t _ Hwf Hem) as (l1 & l2 & Heq & Honce).
  exists l1, l2. split_and!; [done|done| | |].
  - intros _ Hnb.
    exists (World (dir_exists w)
              (<[dest := Content (cat (map (fun e => single_block e.1.2 e.2)
                                           (emitted excl t)))]> (fs_files w))
              (console w ++ failures src excl t)%list
              (opens w ++ [(ModeW, dest)])%list),
           (cat (map (fun e => single_block e.1.2 e.2) l1)),
           (cat (map (fun e => single_block e.1.2 e.2) l2)).
    split; [by apply single_mode_run|]. split; [|done]. simpl.
    rewrite lookup_insert_eq, Heq, map_app, cat_app. cbn [map cat foldr fst snd].
    reflexivity.
  - intros Hok Hnb.
    destruct (last_filter_elem (λ e, e.1.2 = f) (emitted excl t) _ Hem eq_refl)
      as (e' & Hlast & _).
    exists (pf_run src dest (listing excl t)
              (World true (fs_files w) (console w) (opens w))), e'.
    assert (fs_files (pf_run src dest (listing excl t)
                        (World true (fs_files w) (console w) (opens w)))
              !! os_path_join dest (f ++ ".txt") = Some (Content e'.2)) as Hres.
    { fold (dest_key dest f).
      rewrite per_file_last_named; [by rewrite Hlast|done| |done].
      by eapply file_at_sep_free. }
    split; [by apply per_file_mode_run|]. split_and!; [done|done| |].
    + rewrite Hres. split; [congruence|by intros ->].
    + intros Hl2. rewrite Heq, last_filter_split in Hlast by done. congruence.
  - intros Hok Hnb. eexists. split; [by apply by_modules_run|].
    destruct p as [|d q].
    + by apply (root_file_kept src dest excl t w ([], f, c)).
    + intros _. fold (dest_key dest d). rewrite modules_end_top; try done.
      * rewrite Heq, filter_app, filter_cons_True by done.
        rewrite map_app, cat_app. cbn [map cat foldr fst snd].
        rewrite module_block_slashed.
        exists (prior (fs_files w) (dest_key dest d) ++
                cat (map (fun e => module_block e.1.1 e.1.2 e.2)
                         (filter (λ e, head e.1.1 = Some d) l1))),
               (cat (map (fun e => module_block e.1.1 e.1.2 e.2)
                         (filter (λ e, head e.1.1 = Some d) l2))).
        by rewrite !append_assoc.
      * by eapply file_at_top.
      * by apply Forall_cons in Hout as [? _].
Qed.

Lemma split_unique {A} (l1 l2 l1' l2' : list A) x :
  (l1 ++ x :: l2 = l1' ++ x :: l2')%list → x ∉ l1 → x ∉ l1' →
  l1 = l1' ∧ l2 = l2'.
Proof.
  revert l1'. induction l1 as [|y l1 IH]; intros [|y' l1'] Heq H1 H1'.
  - by injection Heq as ->.
  - injection Heq as -> _. destruct H1'. left.
  - injection Heq as -> _. destruct H1. left.
  - injection Heq as -> Heq.
    assert (x ∉ l1) as H2 by (intros H; apply H1; by right).
    assert (x ∉ l1') as H2' by (intros H; apply H1'; by right).
    by destruct (IH l1' Heq H2 H2') as [-> ->].
Qed.

Lemma C1_each_file_once_witness :
  ∃ w1 w2 w3 pre post,
    save_files_as_text "root" ["target"] None nested "out" true fresh = (Ok tt, w1) ∧
    fs_files w1 !! "out" =
      Some (Content
        ("a.py.txt" ++ LF ++ LF ++ "x=1" ++ LF ++ "--------------------" ++ LF ++
         "w.md.txt" ++ LF ++ LF ++ "p" ++ LF ++ "q" ++ LF ++ "--------------------" ++ LF ++
         "b.py.txt" ++ LF ++ LF ++ "y=2" ++ LF ++ "--------------------" ++ LF ++
         "c.py.txt" ++ LF ++ LF ++ "z=3" ++ LF ++ "--------------------" ++ LF)) ∧
    save_files_as_text "root" ["target"] None nested "out" false fresh = (Ok tt, w2) ∧
    fs_files w2 !! "out/c.py.txt" = Some (Content "z=3") ∧
    save_files_as_text_by_modules "root" ["target"] None nested "out" fresh = (Ok tt, w3) ∧
    fs_files w3 !! "out/sub.txt" =
      Some (Content (pre ++
                     ("sub/deep/c.py" ++ LF ++ LF ++ "z=3" ++ LF ++ "---" ++ LF) ++
                     post)).
Proof.
  assert ((["sub"; "deep"], ("c.py", Bytes "z=3")) ∈ tree_files ["target"] nested) as Hin.
  { vm_compute. do 6 right. left. }
  destruct (C1_each_file_once "root" ["target"] None nested "out" fresh
              ["sub"; "deep"] "c.py" "z=3" wf_nested Hin eq_refl eq_refl)
    as (l1 & l2 & Heq & Honce & Hsingle & Hper & Hmod).
  assert (l1 = [([], "a.py", "x=1"); ([], "w.md", "p" ++ LF ++ "q");
                (["sub"], "b.py", "y=2")] ∧ l2 = []) as [-> ->].
  { assert (read_entries ["target"] nested =
            ([([], "a.py", "x=1"); ([], "w.md", ("p" ++ LF ++ "q")%string);
              (["sub"], "b.py", "y=2")] ++
             (["sub"; "deep"], "c.py", "z=3") :: [])%list) as Hre by by_compute.
    rewrite Hre in Heq.
    apply (split_unique l1 l2 _ _ (["sub"; "deep"], "c.py", "z=3")).
    - symmetry. exact Heq.
    - intros H. apply (Honce (["sub"; "deep"], "c.py", "z=3")); [|done].
      apply elem_of_app. by left.
    - apply (bool_decide_unpack _). by_compute. }
  destruct (Hsingle eq_refl (no_blocked_fresh _)) as (w1 & pre1 & post1 & Hrun1 & Hfs1 & Hexact).
  destruct Hexact as [-> ->].
  { apply Forall_forall. apply (bool_decide_unpack _). by_compute. }
  destruct (Hper (or_intror eq_refl) (no_blocked_fresh _))
    as (w2 & e' & Hrun2 & _ & Hfs2 & _ & Hlast).
  rewrite Hlast in Hfs2 by (intros e He; by apply elem_of_nil in He).
  destruct (Hmod (or_intror eq_refl) no_blocked_fresh) as (w3 & Hrun3 & Hfs3).
  destruct (Hfs3 eq_refl) as (pre & post & Hfs3').
  exists w1, w2, w3, pre, post.
  split_and!; [exact Hrun1| |exact Hrun2|exact Hfs2|exact Hrun3|exact Hfs3'].
  refine (eq_trans Hfs1 _). by_compute.
Defined.

(** ** Failed reads are contained *)







































(** * Further properties: diagnostics and decoding *)



(** X16: a readable file that holds only ASCII bytes always decodes: its
    read returns its content with the line endings turned into line feeds.
    So the PerFile iteration on an eligible ASCII file, when its destination
    path can be opened, completes without printing and leaves that text as the
    whole content of [<base name>.txt]; it is the file's bytes when they hold
    no carriage return. *)
Theorem X16_ascii_file_is_written src dest root f b w :
  is_ascii b = true → eligible f = true →
  ¬ blocked (fs_files w) (os_path_join dest (f ++ ".txt")) →
  (∀ w0 : world, read_text (Bytes b) w0 = (Ok (universal_newlines b), w0)) ∧
  ∃ w',
    per_file_entry src dest root (f, Bytes b) w = (Ok tt, w') ∧
    fs_files w' !! os_path_join dest (f ++ ".txt") =
      Some (Content (universal_newlines b)) ∧
    console w' = console w ∧
    opens w' = (opens w ++ [(ModeW, os_path_join dest (f ++ ".txt"))])%list ∧
    (cr_free b = true →
     fs_files w' !! os_path_join dest (f ++ ".txt") = Some (Content b)).
Proof.
  intros Hascii Hel Hnb.
  pose proof (utf8_valid_ascii b Hascii) as Hvalid. split.
  - intros w0. simpl. by rewrite Hvalid.
  - eexists. split; [apply per_file_entry_step|].
    unfold pf_step. cbn [fst snd read_res]. rewrite Hel, Hvalid.
    assert (∀ c, fs_files (opened ModeW (os_path_join dest (f ++ ".txt"))
                   (set_files <[os_path_join dest (f ++ ".txt") := Content c]> w))
                 !! os_path_join dest (f ++ ".txt") = Some (Content c)) as Hins.
    { intros c. simpl. apply lookup_insert_eq. }
    destruct (fs_files w !! os_path_join dest (f ++ ".txt")) as [[c0|err]|] eqn:Hk.
    + split_and!; [apply Hins|done|done|].
      intros Hcr. rewrite universal_newlines_cr_free by done. apply Hins.
    + destruct Hnb. by exists err.
    + split_and!; [apply Hins|done|done|].
      intros Hcr. rewrite universal_newlines_cr_free by done. apply Hins.
Qed.

Lemma X16_ascii_file_is_written_witness :
  (∀ w0 : world, read_text (Bytes "y=2") w0 = (Ok "y=2", w0)) ∧
  ∃ w',
    per_file_entry "root" "out" ["sub"] ("b.py", Bytes "y=2") fresh = (Ok tt, w') ∧
    fs_files w' !! "out/b.py.txt" = Some (Content "y=2") ∧
    console w' = [] ∧
    opens w' = [(ModeW, "out/b.py.txt")].
Proof.
  destruct (X16_ascii_file_is_written "root" "out" ["sub"] "b.py" "y=2" fresh
              eq_refl eq_refl (no_blocked_fresh _))
    as (Hread & w' & Hrun & _ & Hc & Ho & Hfs).
  split; [exact Hread|]. exists w'. split_and!; [exact Hrun| |exact Hc|exact Ho].
  by apply Hfs.
Defined.
